(** * CodeAceJumper: the placeholder decorator

    A shallow embedding of [src/placeholder-decorator.ts] (class
    [PlaceHolderDecorator]) and the properties of its glyph builder, its
    two caches and the life cycle of its decoration handles.

    Conventions of the model.
    - A JavaScript number is an integer: [Z] for the style numbers (the
      source negates a width), [N] for the zero-based lines and columns
      of the editor.  The model prints and multiplies exactly; it agrees
      with JavaScript on the safe integers ([JS.isSafeInteger]), and the
      properties of the glyphs assume them.
    - A string is a [string] of UTF-8 bytes.  The case mappings
      [String.prototype.toUpperCase] and [toLowerCase] are parameters of
      the development; their ASCII restrictions run the examples.
    - The placeholder cache is a plain JavaScript object: own properties,
      the prototype [Object.prototype] unless an assignment to
      [__proto__] replaced it, and property reads that fall back on it.
    - The markup builder throws on a string with a character it does not
      accept; an exception leaves in place what was written before it.
    - The host (the [vscode] module) is a counter of fresh decoration
      keys and the chronological list of the calls made to it. *)

From Stdlib Require Import Ascii String ZArith NArith Lia.
From stdpp Require Import base option list strings pretty gmap fin_maps.

Set Warnings "-register-all,-clear-no-such-hyp".

Local Open Scope string_scope.
Local Open Scope Z_scope.
Local Open Scope list_scope.

(** ** How a computation ends *)

(** [TypeError]: a property of [undefined] was read.  [InvalidCharacter]:
    the markup builder refused a string. *)
Inductive Error : Type := TypeError | InvalidCharacter.

(** Normally with a value, or by an exception. *)
Inductive Completion (A : Type) : Type :=
| Normal (a : A)
| Throw (e : Error).
Arguments Normal {A} a.
Arguments Throw {A} e.

Global Instance Completion_ret : MRet Completion := λ A a, Normal a.
Global Instance Completion_bind : MBind Completion := λ A B f c,
  match c with
  | Normal a => f a
  | Throw e => Throw e
  end.

(** A chain of calls reads left to right: [x |> f] applies [f], and
    [c |>= f] applies it when [c] did not throw. *)
Notation "x |> f" := (f x) (at level 68, left associativity, only parsing).
Notation "c |>= f" := (mbind (M := Completion) f c)
  (at level 68, left associativity, only parsing).

(** [reduce] of ramda with a callback that may throw. *)
Fixpoint reduce {A B} (f : A → B → Completion A) (acc : A) (l : list B)
  : Completion A :=
  match l with
  | [] => Normal acc
  | x :: r =>
      match f acc x with
      | Normal acc' => reduce f acc' r
      | Throw e => Throw e
      end
  end.

(** ** JavaScript strings, numbers and objects *)

Module JS.

Definition upperChar (c : ascii) : ascii :=
  let n := Ascii.N_of_ascii c in
  if ((97 <=? n) && (n <=? 122))%N then Ascii.ascii_of_N (n - 32) else c.

Definition lowerChar (c : ascii) : ascii :=
  let n := Ascii.N_of_ascii c in
  if ((65 <=? n) && (n <=? 90))%N then Ascii.ascii_of_N (n + 32) else c.

Fixpoint mapChars (f : ascii → ascii) (s : string) : string :=
  match s with
  | EmptyString => EmptyString
  | String c r => String (f c) (mapChars f r)
  end.

(** The case mappings on the ASCII letters, every other byte kept: what
    [toUpperCase] and [toLowerCase] do to an ASCII string. *)
Definition asciiUpperCase : string → string := mapChars upperChar.
Definition asciiLowerCase : string → string := mapChars lowerChar.


(** The string a number turns into inside a template literal or when
    it is handed to the markup builder.  For a safe integer these are
    its decimal digits, with a minus sign below zero, and that is what
    the model prints; beyond the safe integers JavaScript rounds the
    number and, from 1e21 on, prints an exponent, which the model does
    not follow. *)
Definition numberToString (z : Z) : string := pretty z.

(** [Number.MAX_VALUE], the largest finite double: it is the integer
    (2^53 - 1) * 2^971. *)
Definition MAX_VALUE : N := ((2 ^ 53 - 1) * 2 ^ 971)%N.

(** The properties every plain object inherits from [Object.prototype]. *)
Definition objectPrototypeKeys : list string :=
  ["constructor"; "__defineGetter__"; "__defineSetter__"; "hasOwnProperty";
   "__lookupGetter__"; "__lookupSetter__"; "isPrototypeOf";
   "propertyIsEnumerable"; "toString"; "valueOf"; "__proto__";
   "toLocaleString"].

(** What reading a property gives: nothing, a value stored under the
    key, or whatever the prototype holds under it ([proto] is [None] for
    [Object.prototype] and [Some a] for an object [a] that took its
    place). *)
Inductive Value (A : Type) : Type :=
| Undefined
| Defined (a : A)
| FromPrototype (proto : option A) (key : string).
Arguments Undefined {A}.
Arguments Defined {A} a.
Arguments FromPrototype {A} proto key.

Definition ofOption {A} (o : option A) : Value A :=
  match o with Some a => Defined a | None => Undefined end.

(** A plain object whose values are objects of type [A]. *)
Record Object (A : Type) : Type := mkObject {
  own : gmap string A;
  proto : option A
}.
Arguments mkObject {A} own proto.
Arguments own {A} o.
Arguments proto {A} o.

(** The literal [{}]. *)
Definition emptyObject {A} : Object A := mkObject ∅ None.

(** [o[key] = a]: an own property, except that [__proto__] names the
    setter of the prototype. *)
Definition set {A} (o : Object A) (key : string) (a : A) : Object A :=
  if decide (key = "__proto__") then mkObject (own o) (Some a)
  else mkObject (<[key := a]> (own o)) (proto o).

(** [o[key]] *)
Definition get {A} (o : Object A) (key : string) : Value A :=
  match own o !! key with
  | Some a => Defined a
  | None =>
      match proto o with
      | Some p =>
          if decide (key = "__proto__") then Defined p
          else FromPrototype (Some p) key
      | None =>
          if decide (key ∈ objectPrototypeKeys) then FromPrototype None key
          else Undefined
      end
  end.

End JS.

(** ** The markup builder ([xmlbuilder]) *)

Module builder.

Inductive XMLNode : Type :=
| XMLElement (name : string) (attribs : list (string * string))
             (children : list XMLNode)
| XMLText (value : string).

(** *** The characters the builder accepts *)

(** Below U+0020 only tab, line feed and carriage return are legal. *)
Definition legalByte (c : ascii) : bool :=
  let n := Ascii.N_of_ascii c in
  ((32 <=? n) || (n =? 9) || (n =? 10) || (n =? 13))%N.

(** U+FFFE and U+FFFF, as UTF-8. *)
Definition nonCharacters : list string :=
  [String "239" (String "191" (String "190" EmptyString));
   String "239" (String "191" (String "191" EmptyString))].

Definition startsNonCharacter (s : string) : bool :=
  existsb (λ bad, String.prefix bad s) nonCharacters.

Fixpoint isLegal (s : string) : bool :=
  match s with
  | EmptyString => true
  | String c r =>
      legalByte c && negb (startsNonCharacter (String c r)) && isLegal r
  end.

(** The stringifier's [assertLegalChar]. *)
Definition assertLegalChar (s : string) : Completion string :=
  if isLegal s then Normal s else Throw InvalidCharacter.

(** *** Escaping *)

Fixpoint escapeWith (f : ascii → option string) (s : string) : string :=
  match s with
  | EmptyString => EmptyString
  | String c r =>
      match f c with
      | Some e => e +:+ escapeWith f r
      | None => String c (escapeWith f r)
      end
  end.

(** The stringifier's escape of an attribute value. *)
Definition attEscape : string → string :=
  escapeWith (λ c,
    if decide (c = "&"%char) then Some "&amp;"
    else if decide (c = "<"%char) then Some "&lt;"
    else if decide (c = "034"%char) then Some "&quot;"
    else if decide (c = "009"%char) then Some "&#x9;"
    else if decide (c = "010"%char) then Some "&#xA;"
    else if decide (c = "013"%char) then Some "&#xD;"
    else None).

(** The stringifier's escape of element text. *)
Definition elEscape : string → string :=
  escapeWith (λ c,
    if decide (c = "&"%char) then Some "&amp;"
    else if decide (c = "<"%char) then Some "&lt;"
    else if decide (c = ">"%char) then Some "&gt;"
    else if decide (c = "013"%char) then Some "&#xD;"
    else None).

(** *** Building a tree *)

(** [builder.create(name, {}, {}, { headless: true })]: a root element
    and no XML declaration in front of it. *)
Definition create (name : string) : XMLNode := XMLElement name [] [].

(** The attributes of an element are keyed by name and keep the order
    in which the names first appeared. *)
Fixpoint setAttrib (name value : string) (l : list (string * string))
  : list (string * string) :=
  match l with
  | [] => [(name, value)]
  | (k, v) :: r =>
      if decide (k = name) then (k, value) :: r
      else (k, v) :: setAttrib name value r
  end.

(** [node.att(name, value)]: the escaped value is checked when the
    attribute is made. *)
Definition att (name value : string) (node : XMLNode) : Completion XMLNode :=
  _ ← assertLegalChar (attEscape value);
  Normal match node with
         | XMLElement t a c => XMLElement t (setAttrib name value a) c
         | XMLText _ => node
         end.

(** [node.att(name, value)] with a number for value. *)
Definition attNum (name : string) (value : Z) : XMLNode → Completion XMLNode :=
  att name (JS.numberToString value).

(** [node.text(value)]: a text node becomes the last child; its escaped
    value is checked when it is made. *)
Definition text (value : string) (node : XMLNode) : Completion XMLNode :=
  _ ← assertLegalChar (elEscape value);
  Normal match node with
         | XMLElement t a c => XMLElement t a (c ++ [XMLText value])
         | XMLText _ => node
         end.

(** [root.ele(name).att(..)...]: the calls chained after [ele] act on
    the new child, which sits last among the children of [root]. *)
Definition ele (name : string) (chain : XMLNode → Completion XMLNode)
           (root : XMLNode) : Completion XMLNode :=
  child ← chain (create name);
  Normal match root with
         | XMLElement t a c => XMLElement t a (c ++ [child])
         | XMLText _ => root
         end.

(** *** Reading a tree *)

Definition nodeName (n : XMLNode) : option string :=
  match n with XMLElement t _ _ => Some t | XMLText _ => None end.

Definition nodeChildren (n : XMLNode) : list XMLNode :=
  match n with XMLElement _ _ c => c | XMLText _ => [] end.

Definition nodeAttribs (n : XMLNode) : list (string * string) :=
  match n with XMLElement _ a _ => a | XMLText _ => [] end.

Fixpoint assoc (name : string) (l : list (string * string)) : option string :=
  match l with
  | [] => None
  | (k, v) :: r => if decide (k = name) then Some v else assoc name r
  end.

Definition getAttrib (name : string) (n : XMLNode) : option string :=
  assoc name (nodeAttribs n).

Definition isElementNamed (name : string) (n : XMLNode) : bool :=
  match n with
  | XMLElement t _ _ => bool_decide (t = name)
  | XMLText _ => false
  end.

(** The elements called [name] among the children of a node. *)
Definition childrenNamed (name : string) (n : XMLNode) : list XMLNode :=
  filter (λ c, isElementNamed name c = true) (nodeChildren n).

(** *** Writing a tree: [root.end({ pretty: false })] *)

Definition dquote : string := String "034"%char EmptyString.

Definition quoted (s : string) : string := dquote +:+ s +:+ dquote.

Definition writeAttrib (kv : string * string) : string :=
  " " +:+ kv.1 +:+ "=" +:+ quoted (attEscape kv.2).

Fixpoint concatStrings (l : list string) : string :=
  match l with
  | [] => ""
  | s :: r => s +:+ concatStrings r
  end.

Definition writeAttribs (a : list (string * string)) : string :=
  concatStrings (writeAttrib <$> a).

Definition isEmptyText (n : XMLNode) : bool :=
  match n with
  | XMLText EmptyString => true
  | _ => false
  end.

(** Compact output: nothing is put between a tag and its neighbours.
    An element without children, or with none but empty texts, closes
    itself. *)
Fixpoint writeNode (n : XMLNode) : string :=
  match n with
  | XMLText v => elEscape v
  | XMLElement t a c =>
      let open := "<" +:+ t +:+ writeAttribs a in
      if forallb isEmptyText c then open +:+ "/>"
      else
        open +:+ ">" +:+
        (fix writeAll (l : list XMLNode) : string :=
           match l with
           | [] => ""
           | x :: r => writeNode x +:+ writeAll r
           end) c
        +:+ "</" +:+ t +:+ ">"
  end.

(** [root.end({ pretty: false })] *)
Definition end_ (root : XMLNode) : string := writeNode root.

End builder.

(** ** The records handed to the decorator *)

Module PlaceholderConfig.
(** Modelled from the spec: the declaration of [Config]
    ([./config/config]) is not among the sources.  This is its
    [placeholder] record: the fields the decorator reads, with the types
    of the spec's data model. *)
Record t : Type := mk {
  width : Z;
  height : Z;
  backgroundColor : string;
  color : string;
  fontFamily : string;
  fontWeight : string;
  fontSize : Z;
  textPosX : Z;
  textPosY : Z;
  upperCase : bool
}.
End PlaceholderConfig.

Module HighlightConfig.
(** Modelled from the spec: the [highlight] record of the missing
    [Config] declaration. *)
Record t : Type := mk {
  width : Z;
  height : Z;
  backgroundColor : string;
  offsetX : Z;
  offsetY : Z
}.
End HighlightConfig.

Module Config.
(** Modelled from the spec: the missing [Config] declaration itself.
    The decorator reads [characters] from the config, not from its
    [placeholder] record. *)
Record t : Type := mk {
  characters : list string;
  placeholder : PlaceholderConfig.t;
  highlight : HighlightConfig.t
}.
End Config.

Module Placeholder.
(** Modelled from the spec: the declaration of [Placeholder]
    ([./models/placeholder]) is not among the sources; a target is a
    zero-based line, a zero-based column and the code shown there. *)
Record t : Type := mk {
  line : N;
  character : N;
  placeholder : string
}.
End Placeholder.

(** ** The host: the part of [vscode] the decorator calls *)

(** A [Uri] is known by the text it was parsed from. *)
Module Uri.
Record t : Type := parse { toString : string }.
End Uri.

Module Position.
Record t : Type := new { line : N; character : N }.

Definition isBefore (a b : t) : bool :=
  ((line a <? line b) || ((line a =? line b) && (character a <? character b)))%N.
End Position.

Module Range.
Record t : Type := mk { start : Position.t; end_ : Position.t }.

(** [new Range(start, end)]: the earlier position comes first. *)
Definition new (a b : Position.t) : t :=
  if Position.isBefore a b then mk a b else mk b a.

(** [new Range(startLine, startCharacter, endLine, endCharacter)] *)
Definition new4 (l1 c1 l2 c2 : N) : t :=
  new (Position.new l1 c1) (Position.new l2 c2).

Definition isEmpty (r : t) : bool :=
  bool_decide (Position.line (start r) = Position.line (end_ r)
               ∧ Position.character (start r) = Position.character (end_ r)).
End Range.

Record ThemableDecorationAttachmentRenderOptions : Type := {
  contentIconPath : JS.Value Uri.t;
  margin : option string;
  height : option string;
  width : option string
}.

Record ThemableDecorationInstanceRenderOptions : Type := {
  after : option ThemableDecorationAttachmentRenderOptions
}.

Record DecorationInstanceRenderOptions : Type := {
  dark : option ThemableDecorationInstanceRenderOptions;
  light : option ThemableDecorationInstanceRenderOptions
}.

(** One binding of a batch.  A bare [Range] given to [setDecorations] is
    a binding without render options. *)
Record DecorationOptions : Type := {
  range : Range.t;
  renderOptions : option DecorationInstanceRenderOptions
}.

Definition ofRange (r : Range.t) : DecorationOptions :=
  {| range := r; renderOptions := None |}.

Module DecorationRenderOptions.
Record t : Type := mk {
  textDecoration : option string;
  after : option ThemableDecorationAttachmentRenderOptions
}.
End DecorationRenderOptions.

(** A decoration type is an opaque handle; the host tells two of them
    apart by their key. *)
Record TextEditorDecorationType : Type := { key : nat }.

Record TextDocument : Type := { lineCount : N }.
Record TextEditor : Type := { editorId : nat; document : TextDocument }.

Inductive HostCall : Type :=
| CreateTextEditorDecorationType (made : TextEditorDecorationType)
                                 (options : DecorationRenderOptions.t)
| SetDecorations (editor : TextEditor) (decorationType : TextEditorDecorationType)
                 (bindings : list DecorationOptions)
| Dispose (decorationType : TextEditorDecorationType).

Global Instance Uri_eq_dec : EqDecision Uri.t.
Proof. solve_decision. Defined.
Global Instance TextEditorDecorationType_eq_dec : EqDecision TextEditorDecorationType.
Proof. solve_decision. Defined.
Global Instance TextDocument_eq_dec : EqDecision TextDocument.
Proof. solve_decision. Defined.
Global Instance TextEditor_eq_dec : EqDecision TextEditor.
Proof. solve_decision. Defined.

(** ** The decorator and the world it runs in *)

Record PlaceHolderDecorator : Type := {
  config : option Config.t;
  placeholderCache : option (JS.Object Uri.t);
  highlightCache : option (gmap Z Uri.t);
  dim : option TextEditorDecorationType;
  decorations : list TextEditorDecorationType;
  highlights : list TextEditorDecorationType
}.

(** [new PlaceHolderDecorator()]: the two lists start empty, the other
    fields are not set. *)
Definition newPlaceHolderDecorator : PlaceHolderDecorator :=
  {| config := None; placeholderCache := None; highlightCache := None;
     dim := None; decorations := []; highlights := [] |}.

Record World : Type := {
  self : PlaceHolderDecorator;
  nextKey : nat;
  calls : list HostCall
}.

Definition initialWorld : World :=
  {| self := newPlaceHolderDecorator; nextKey := 0%nat; calls := [] |}.

(** A method acts on the world and completes.  What was written
    before a throw stays written. *)
Definition M (A : Type) : Type := World → Completion A * World.

Global Instance M_ret : MRet M := λ A a w, (Normal a, w).
Global Instance M_bind : MBind M := λ A B f m w,
  match m w with
  | (Normal a, w') => f a w'
  | (Throw e, w') => (Throw e, w')
  end.
Global Instance M_fmap : FMap M := λ A B f m w,
  match m w with
  | (Normal a, w') => (Normal (f a), w')
  | (Throw e, w') => (Throw e, w')
  end.

Definition throw {A} (e : Error) : M A := λ w, (Throw e, w).

(** A computation that does not touch the world. *)
Definition liftCompletion {A} (c : Completion A) : M A := λ w, (c, w).

Definition getThis : M PlaceHolderDecorator := λ w, (Normal (self w), w).

Definition setThis (f : PlaceHolderDecorator → PlaceHolderDecorator) : M unit :=
  λ w, (Normal (), {| self := f (self w); nextKey := nextKey w; calls := calls w |}).

Definition hostCall (c : HostCall) : M unit :=
  λ w, (Normal (), {| self := self w; nextKey := nextKey w; calls := calls w ++ [c] |}).

(** Reading a property of [x] throws when [x] is [undefined]. *)
Definition deref {A} (x : option A) : M A :=
  match x with
  | Some a => mret a
  | None => throw TypeError
  end.

Definition thisConfig : M Config.t := getThis ≫= λ t, deref (config t).

Module window.
(** [window.createTextEditorDecorationType(options)]: a handle no
    earlier call returned. *)
Definition createTextEditorDecorationType (options : DecorationRenderOptions.t)
  : M TextEditorDecorationType :=
  λ w, let made := {| key := nextKey w |} in
       (Normal made,
        {| self := self w; nextKey := S (nextKey w);
           calls := calls w ++ [CreateTextEditorDecorationType made options] |}).
End window.

(** [editor.setDecorations(decorationType, rangesOrOptions)] *)
Definition setDecorations (editor : TextEditor) (decorationType : TextEditorDecorationType)
           (bindings : list DecorationOptions) : M unit :=
  hostCall (SetDecorations editor decorationType bindings).

(** [decorationType.dispose()] *)
Definition dispose (decorationType : TextEditorDecorationType) : M unit :=
  hostCall (Dispose decorationType).

(** Field updates of the decorator. *)
Definition set_config (v : option Config.t) (t : PlaceHolderDecorator) :=
  {| config := v; placeholderCache := placeholderCache t;
     highlightCache := highlightCache t; dim := dim t;
     decorations := decorations t; highlights := highlights t |}.
Definition set_placeholderCache (v : option (JS.Object Uri.t)) (t : PlaceHolderDecorator) :=
  {| config := config t; placeholderCache := v;
     highlightCache := highlightCache t; dim := dim t;
     decorations := decorations t; highlights := highlights t |}.
Definition set_highlightCache (v : option (gmap Z Uri.t)) (t : PlaceHolderDecorator) :=
  {| config := config t; placeholderCache := placeholderCache t;
     highlightCache := v; dim := dim t;
     decorations := decorations t; highlights := highlights t |}.
Definition set_dim (v : option TextEditorDecorationType) (t : PlaceHolderDecorator) :=
  {| config := config t; placeholderCache := placeholderCache t;
     highlightCache := highlightCache t; dim := v;
     decorations := decorations t; highlights := highlights t |}.
Definition set_decorations (v : list TextEditorDecorationType) (t : PlaceHolderDecorator) :=
  {| config := config t; placeholderCache := placeholderCache t;
     highlightCache := highlightCache t; dim := dim t;
     decorations := v; highlights := highlights t |}.
Definition set_highlights (v : list TextEditorDecorationType) (t : PlaceHolderDecorator) :=
  {| config := config t; placeholderCache := placeholderCache t;
     highlightCache := highlightCache t; dim := dim t;
     decorations := decorations t; highlights := v |}.

(** [forEach] of ramda, with a callback that acts on the world. *)
Fixpoint forEach {A} (f : A → M unit) (l : list A) : M unit :=
  match l with
  | [] => mret ()
  | x :: r => f x ;; forEach f r
  end.


(** ** The methods of [PlaceHolderDecorator] *)

Section Decorator.

(** [String.prototype.toUpperCase] and [String.prototype.toLowerCase]:
    built into the language, not part of the sources. *)
Variable toUpperCase : string → string.
Variable toLowerCase : string → string.

(** [private buildUriForPlaceholder(code)], with [this.config] as an
    argument: [updateCache] is its only caller and runs it under the
    config it has just read.  It throws when the builder refuses a
    string. *)
Definition buildUriForPlaceholder (config : Config.t) (code : string)
  : Completion Uri.t :=
  let placeholder := Config.placeholder config in
  root ←
    (builder.create "svg"
     |> builder.att "xmlns" "http://www.w3.org/2000/svg"
     |>= builder.att "viewBox"
          ("0 0 " +:+ JS.numberToString (PlaceholderConfig.width placeholder) +:+ " "
                  +:+ JS.numberToString (PlaceholderConfig.height placeholder))
     |>= builder.attNum "width" (PlaceholderConfig.width placeholder)
     |>= builder.attNum "height" (PlaceholderConfig.height placeholder)
     |>= builder.ele "rect" (λ rect,
          rect
          |> builder.attNum "width" (PlaceholderConfig.width placeholder)
          |>= builder.attNum "height" (PlaceholderConfig.height placeholder)
          |>= builder.attNum "rx" 2
          |>= builder.attNum "ry" 2
          |>= builder.att "style"
               ("fill: " +:+ PlaceholderConfig.backgroundColor placeholder))
     |>= builder.ele "text" (λ text,
          text
          |> builder.att "font-weight" (PlaceholderConfig.fontWeight placeholder)
          |>= builder.att "font-family" (PlaceholderConfig.fontFamily placeholder)
          |>= builder.att "font-size"
               (JS.numberToString (PlaceholderConfig.fontSize placeholder) +:+ "px")
          |>= builder.att "fill" (PlaceholderConfig.color placeholder)
          |>= builder.attNum "x" (PlaceholderConfig.textPosX placeholder)
          |>= builder.attNum "y" (PlaceholderConfig.textPosY placeholder)
          |>= builder.text
               (if PlaceholderConfig.upperCase placeholder
                then toUpperCase code
                else toLowerCase code)));
  let svg := builder.end_ root in
  Normal (Uri.parse ("data:image/svg+xml;utf8," +:+ svg)).

(** [private buildUriForHighlight(characterCount)] *)
Definition buildUriForHighlight (config : Config.t) (characterCount : Z)
  : Completion Uri.t :=
  let highlight := Config.highlight config in
  let width := HighlightConfig.width highlight * characterCount in
  let height := HighlightConfig.height highlight in
  let offsetX := HighlightConfig.offsetX highlight in
  let offsetY := HighlightConfig.offsetY highlight in
  root ←
    (builder.create "svg"
     |> builder.att "xmlns" "http://www.w3.org/2000/svg"
     |>= builder.att "viewBox"
          (JS.numberToString offsetX +:+ " " +:+ JS.numberToString offsetY +:+ " "
           +:+ JS.numberToString width +:+ " " +:+ JS.numberToString height)
     |>= builder.attNum "width" width
     |>= builder.attNum "height" height
     |>= builder.ele "rect" (λ rect,
          rect
          |> builder.attNum "width" width
          |>= builder.attNum "height" height
          |>= builder.attNum "rx" 2
          |>= builder.attNum "ry" 2
          |>= builder.att "style"
               ("fill: " +:+ HighlightConfig.backgroundColor highlight)));
  let svg := builder.end_ root in
  Normal (Uri.parse ("data:image/svg+xml;utf8," +:+ svg)).

(** [[...Array(10)].map((_, i) => i + 1)] *)
Definition highlightWidths : list Z :=
  imap (λ i _, Z.of_nat i + 1) (replicate 10 ()).

(** [private updateCache()]: each cache is folded into a fresh object,
    which is stored when the fold is over.  A build that throws ends the
    method there. *)
Definition updateCache : M unit :=
  config ← thisConfig;
  placeholderCache ← liftCompletion
    (reduce (λ acc code,
               uri ← buildUriForPlaceholder config code;
               Normal (JS.set acc code uri))
            JS.emptyObject (Config.characters config));
  setThis (set_placeholderCache (Some placeholderCache)) ;;
  config ← thisConfig;
  highlightCache ← liftCompletion
    (reduce (λ acc width,
               uri ← buildUriForHighlight config width;
               Normal (<[width := uri]> acc))
            ∅ highlightWidths);
  setThis (set_highlightCache (Some highlightCache)).

Definition refreshConfig (config : Config.t) : M unit :=
  setThis (set_config (Some config)) ;;
  updateCache.

(** [this.placeholderCache[code]] *)
Definition readPlaceholderCache (code : string) : M (JS.Value Uri.t) :=
  t ← getThis; cache ← deref (placeholderCache t); mret (JS.get cache code).

(** [this.highlightCache[highlightCount]]: the keys of this object are
    the decimal strings of 1..10 and a number reads under its own. *)
Definition readHighlightCache (highlightCount : Z) : M (JS.Value Uri.t) :=
  t ← getThis; cache ← deref (highlightCache t);
  mret (JS.ofOption (cache !! highlightCount)).

Definition iconOnly (icon : JS.Value Uri.t) : ThemableDecorationInstanceRenderOptions :=
  {| after := Some {| contentIconPath := icon; margin := None;
                      height := None; width := None |} |}.

Definition addDecorations (editor : TextEditor) (placeholders : list Placeholder.t)
  : M unit :=
  width ← (λ c, PlaceholderConfig.width (Config.placeholder c)) <$> thisConfig;
  height ← (λ c, PlaceholderConfig.height (Config.placeholder c)) <$> thisConfig;
  decorationType ← window.createTextEditorDecorationType
    (DecorationRenderOptions.mk None (Some
      {| contentIconPath := JS.Undefined;
         margin := Some ("0 0 0 " +:+ JS.numberToString (1 * - width) +:+ "px");
         height := Some (JS.numberToString height +:+ "px");
         width := Some (JS.numberToString (1 * width) +:+ "px") |}));
  options ← mapM (λ placeholder,
      let range := Range.new4 (Placeholder.line placeholder)
                              (Placeholder.character placeholder + 1)
                              (Placeholder.line placeholder)
                              (Placeholder.character placeholder + 1) in
      darkIcon ← readPlaceholderCache (Placeholder.placeholder placeholder);
      lightIcon ← readPlaceholderCache (Placeholder.placeholder placeholder);
      mret {| range := range;
              renderOptions := Some {| dark := Some (iconOnly darkIcon);
                                       light := Some (iconOnly lightIcon) |} |})
    placeholders;
  setThis (λ t, set_decorations (decorations t ++ [decorationType]) t) ;;
  setDecorations editor decorationType options.

Definition addHighlights (editor : TextEditor) (placeholders : list Placeholder.t)
           (highlightCount : Z) : M unit :=
  width ← (λ c, PlaceholderConfig.width (Config.placeholder c)) <$> thisConfig;
  height ← (λ c, PlaceholderConfig.height (Config.placeholder c)) <$> thisConfig;
  decorationType ← window.createTextEditorDecorationType
    (DecorationRenderOptions.mk None (Some
      {| contentIconPath := JS.Undefined;
         margin := Some ("0 0 0 " +:+ JS.numberToString (1 * - width) +:+ "px");
         height := Some (JS.numberToString height +:+ "px");
         width := Some (JS.numberToString (1 * width) +:+ "px") |}));
  options ← mapM (λ placeholder,
      let range := Range.new4 (Placeholder.line placeholder)
                              (Placeholder.character placeholder + 2)
                              (Placeholder.line placeholder)
                              (Placeholder.character placeholder + 2) in
      darkIcon ← readHighlightCache highlightCount;
      lightIcon ← readHighlightCache highlightCount;
      mret {| range := range;
              renderOptions := Some {| dark := Some (iconOnly darkIcon);
                                       light := Some (iconOnly lightIcon) |} |})
    placeholders;
  setThis (λ t, set_highlights (highlights t ++ [decorationType]) t) ;;
  setDecorations editor decorationType options.

Definition undimEditor (editor : TextEditor) : M unit :=
  t ← getThis;
  match dim t with
  | Some d =>
      setDecorations editor d [] ;;
      dispose d ;;
      setThis (set_dim None)
  | None => mret ()
  end.

(** [ranges] is [None] for a call that passes [undefined]. *)
Definition dimEditor (editor : TextEditor) (ranges : option (list Range.t)) : M unit :=
  undimEditor editor ;;
  let options :=
    DecorationRenderOptions.mk (Some "none; filter: grayscale(1);") None in
  made ← window.createTextEditorDecorationType options;
  setThis (set_dim (Some made)) ;;
  let toAddRanges :=
    match ranges with
    | Some (r :: rs) => [] ++ (r :: rs)
    | _ =>
        [] ++ [Range.new (Position.new 0 0)
                         (Position.new (lineCount (document editor)) JS.MAX_VALUE)]
    end in
  setDecorations editor made (ofRange <$> toAddRanges).

Definition removeDecorations (editor : TextEditor) : M unit :=
  t ← getThis;
  forEach (λ item, setDecorations editor item [] ;; dispose item) (decorations t) ;;
  setThis (set_decorations []).

Definition removeHighlights (editor : TextEditor) : M unit :=
  t ← getThis;
  forEach (λ item, setDecorations editor item [] ;; dispose item) (highlights t) ;;
  setThis (set_highlights []).

(** ** Running the decorator *)

(** The calls a client can make, and a client that makes them one after
    the other whatever the outcome of each. *)
Inductive Call : Type :=
| RefreshConfig (config : Config.t)
| AddDecorations (editor : TextEditor) (placeholders : list Placeholder.t)
| AddHighlights (editor : TextEditor) (placeholders : list Placeholder.t)
                (highlightCount : Z)
| DimEditor (editor : TextEditor) (ranges : option (list Range.t))
| RemoveDecorations (editor : TextEditor)
| RemoveHighlights (editor : TextEditor)
| UndimEditor (editor : TextEditor).

Definition call (c : Call) : M unit :=
  match c with
  | RefreshConfig config => refreshConfig config
  | AddDecorations editor placeholders => addDecorations editor placeholders
  | AddHighlights editor placeholders highlightCount =>
      addHighlights editor placeholders highlightCount
  | DimEditor editor ranges => dimEditor editor ranges
  | RemoveDecorations editor => removeDecorations editor
  | RemoveHighlights editor => removeHighlights editor
  | UndimEditor editor => undimEditor editor
  end.

Definition runCalls (cs : list Call) (w : World) : World :=
  foldl (λ w c, (call c w).2) w cs.

(** The config of the last [refreshConfig] among the calls. *)
Definition lastRefresh (cs : list Call) : option Config.t :=
  foldl (λ acc c, match c with RefreshConfig config => Some config | _ => acc end)
        None cs.

(** ** Reading the calls made to the host *)

(** The handles with a dim style that were made and not disposed of. *)
Definition isDimStyle (o : DecorationRenderOptions.t) : bool :=
  match DecorationRenderOptions.textDecoration o with
  | Some _ => true
  | None => false
  end.

Definition liveDimStep (live : list TextEditorDecorationType) (c : HostCall)
  : list TextEditorDecorationType :=
  match c with
  | CreateTextEditorDecorationType made o =>
      if isDimStyle o then live ++ [made] else live
  | SetDecorations _ _ _ => live
  | Dispose h => filter (λ x, x ≠ h) live
  end.

Definition liveDim (cs : list HostCall) : list TextEditorDecorationType :=
  foldl liveDimStep [] cs.

Definition isDisposeOf (h : TextEditorDecorationType) (c : HostCall) : bool :=
  match c with
  | Dispose h' => bool_decide (h' = h)
  | _ => false
  end.

(** A call that clears the bindings of [h] on [editor]. *)
Definition isClearOf (editor : TextEditor) (h : TextEditorDecorationType)
           (c : HostCall) : bool :=
  match c with
  | SetDecorations editor' h' [] => bool_decide (editor' = editor ∧ h' = h)
  | _ => false
  end.

Definition countCalls (p : HostCall → bool) (cs : list HostCall) : nat :=
  length (filter (λ c, p c = true) cs).

(** The icon a binding shows, under the dark and under the light theme. *)
Definition iconOf (o : option ThemableDecorationInstanceRenderOptions)
  : JS.Value Uri.t :=
  match o ≫= after with
  | Some a => contentIconPath a
  | None => JS.Undefined
  end.

Definition darkIconOf (o : DecorationOptions) : JS.Value Uri.t :=
  iconOf (renderOptions o ≫= dark).

Definition lightIconOf (o : DecorationOptions) : JS.Value Uri.t :=
  iconOf (renderOptions o ≫= light).

(** ** The vocabulary of the properties *)

(** What [removeDecorations] and [removeHighlights] tell the host. *)
Definition clearAndRelease (editor : TextEditor)
           (l : list TextEditorDecorationType) : list HostCall :=
  l ≫= λ item, [SetDecorations editor item []; Dispose item].

(** The caches [updateCache] builds from a config, when no build
    throws. *)
Definition placeholderCacheOf (config : Config.t) : Completion (JS.Object Uri.t) :=
  reduce (λ acc code,
            uri ← buildUriForPlaceholder config code;
            Normal (JS.set acc code uri))
         JS.emptyObject (Config.characters config).

Definition highlightCacheOf (config : Config.t) : Completion (gmap Z Uri.t) :=
  reduce (λ acc width,
            uri ← buildUriForHighlight config width;
            Normal (<[width := uri]> acc))
         ∅ highlightWidths.

(** Every glyph and every bar of the config can be built. *)
Definition builds (config0 : Config.t) : Prop :=
  ∃ pc hc, placeholderCacheOf config0 = Normal pc
           ∧ highlightCacheOf config0 = Normal hc.

(** The decorator holds [config] and the two caches built from it. *)
Definition cachesBuiltFrom (config0 : Config.t) (t : PlaceHolderDecorator) : Prop :=
  ∃ pc hc,
    config t = Some config0
    ∧ placeholderCache t = Some pc
    ∧ highlightCache t = Some hc
    ∧ placeholderCacheOf config0 = Normal pc
    ∧ highlightCacheOf config0 = Normal hc.

(** The decorator holds a config and two caches: some [refreshConfig]
    has stored all three. *)
Definition ready (t : PlaceHolderDecorator) : Prop :=
  is_Some (config t) ∧ is_Some (placeholderCache t) ∧ is_Some (highlightCache t).

(** A call whose [refreshConfig], if it is one, is given a config that
    can be built. *)
Definition validCall (c : Call) : Prop :=
  match c with
  | RefreshConfig config0 => builds config0
  | _ => True
  end.

(** Nothing is stored yet, or all of config and caches are. *)
Definition whole (t : PlaceHolderDecorator) : Prop :=
  (config t = None ∧ placeholderCache t = None ∧ highlightCache t = None)
  ∨ ready t.

(** A zero-width binding at [(line, column)] that shows [icon] under
    both themes. *)
Definition pointBinding (line column : N) (icon : JS.Value Uri.t) : DecorationOptions :=
  {| range := Range.mk (Position.new line column) (Position.new line column);
     renderOptions := Some {| dark := Some (iconOnly icon);
                              light := Some (iconOnly icon) |} |}.

(** The footprint of a handle made for a glyph of the given size. *)
Definition glyphFootprint (glyphWidth glyphHeight : Z) : DecorationRenderOptions.t :=
  DecorationRenderOptions.mk None (Some
    {| contentIconPath := JS.Undefined;
       margin := Some ("0 0 0 " +:+ JS.numberToString (- glyphWidth) +:+ "px");
       height := Some (JS.numberToString glyphHeight +:+ "px");
       width := Some (JS.numberToString glyphWidth +:+ "px") |}).

Definition dimStyle : DecorationRenderOptions.t :=
  DecorationRenderOptions.mk (Some "none; filter: grayscale(1);") None.

(** What [undimEditor] tells the host. *)
Definition undimCalls (editor : TextEditor) (d : option TextEditorDecorationType)
  : list HostCall :=
  match d with
  | Some h => [SetDecorations editor h []; Dispose h]
  | None => []
  end.

(** The ranges [dimEditor] dims. *)
Definition wholeBuffer (editor : TextEditor) : Range.t :=
  Range.mk (Position.new 0 0)
           (Position.new (lineCount (document editor)) JS.MAX_VALUE).

Definition dimmedRanges (editor : TextEditor) (ranges : option (list Range.t))
  : list Range.t :=
  match ranges with
  | Some (r :: rs) => r :: rs
  | _ => [wholeBuffer editor]
  end.

(** Sample inputs. *)
Definition demoConfig : Config.t :=
  Config.mk ["a"; "s"; "d"]
    (PlaceholderConfig.mk 12 14 "yellow" "black" "Consolas" "normal" 14 2 12 false)
    (HighlightConfig.mk 6 14 "blue" 0 0).

Definition demoEditor : TextEditor :=
  {| editorId := 0; document := {| lineCount := 40 |} |}.

Definition otherConfig : Config.t :=
  Config.mk ["j"; "k"]
    (PlaceholderConfig.mk 10 16 "red" "white" "monospace" "bold" 12 1 11 true)
    (HighlightConfig.mk 5 16 "green" 1 2).

(** A string the builder refuses: the character U+0000. *)
Definition nul : string := String "000" EmptyString.

(** The demo config with a highlight colour the builder refuses. *)
Definition badHighlightConfig : Config.t :=
  Config.mk ["j"; "k"] (Config.placeholder demoConfig)
            (HighlightConfig.mk 6 14 nul 0 0).

(** The demo config with a code the builder refuses. *)
Definition badCodeConfig : Config.t :=
  Config.mk ["a"; nul] (Config.placeholder demoConfig) (Config.highlight demoConfig).

Definition demoTargets : list Placeholder.t :=
  [Placeholder.mk 3 5 "s"; Placeholder.mk 4 0 "x"; Placeholder.mk 7 2 "a"].

Definition demoWorld : World := (refreshConfig demoConfig initialWorld).2.

Definition isAddDecorations (c : Call) : bool :=
  match c with AddDecorations _ _ => true | _ => false end.
Definition isRemoveDecorations (c : Call) : bool :=
  match c with RemoveDecorations _ => true | _ => false end.
Definition isAddHighlights (c : Call) : bool :=
  match c with AddHighlights _ _ _ => true | _ => false end.
Definition isRemoveHighlights (c : Call) : bool :=
  match c with RemoveHighlights _ => true | _ => false end.

Definition howMany (p : Call → bool) (cs : list Call) : nat :=
  length (filter (λ c, p c = true) cs).

(** What holds of every world a client can bring about. *)
Record tracksWell (w : World) : Prop := {
  decorations_NoDup : NoDup (decorations (self w));
  highlights_NoDup : NoDup (highlights (self w));
  dim_apart : ∀ h, dim (self w) = Some h →
              (h ∉ decorations (self w)) ∧ (h ∉ highlights (self w));
  keys_below : ∀ h, (h ∈ decorations (self w) ∨ h ∈ highlights (self w)
                     ∨ dim (self w) = Some h) → (key h < nextKey w)%nat;
  liveDim_tracked : liveDim (calls w) = option_list (dim (self w))
}.

(** ** The host's contract and an abstract view of the decorator *)

Global Instance TextEditorDecorationType_countable : Countable TextEditorDecorationType.
Proof. apply (inj_countable' key (λ k, {| key := k |})). by intros []. Defined.

(** What the host knows of the handles: the ones it has ever made and
    the ones not yet disposed of. *)
Record HostState : Type := {
  everMade : gset TextEditorDecorationType;
  alive : gset TextEditorDecorationType
}.

Definition hostStart : HostState := {| everMade := ∅; alive := ∅ |}.

(** The host accepts a call when it makes a handle never made before, or
    binds or disposes of a handle that is alive. *)
Definition hostStep (s : HostState) (c : HostCall) : option HostState :=
  match c with
  | CreateTextEditorDecorationType h _ =>
      if decide (h ∈ everMade s) then None
      else Some {| everMade := {[h]} ∪ everMade s; alive := {[h]} ∪ alive s |}
  | SetDecorations _ h _ =>
      if decide (h ∈ alive s) then Some s else None
  | Dispose h =>
      if decide (h ∈ alive s)
      then Some {| everMade := everMade s; alive := alive s ∖ {[h]} |}
      else None
  end.

Fixpoint hostRun (cs : list HostCall) (s : HostState) : option HostState :=
  match cs with
  | [] => Some s
  | c :: r =>
      match hostStep s c with
      | Some s' => hostRun r s'
      | None => None
      end
  end.

(** The handles the decorator tracks. *)
Definition trackedSet (t : PlaceHolderDecorator) : gset TextEditorDecorationType :=
  list_to_set (decorations t) ∪ list_to_set (highlights t)
  ∪ match dim t with Some d => {[d]} | None => ∅ end.

(** The decorator and a host state that fit together: the host has
    accepted every call and every tracked handle is alive. *)
Record hostAgrees (w : World) (s : HostState) : Prop := {
  host_accepts : hostRun (calls w) hostStart = Some s;
  tracked_alive : trackedSet (self w) ⊆ alive s;
  alive_made : alive s ⊆ everMade s;
  made_below : ∀ h, h ∈ everMade s → (key h < nextKey w)%nat;
  lists_apart : ∀ h, h ∈ decorations (self w) → h ∉ highlights (self w)
}.

(** The decorator seen from outside: whether a config is stored, how
    many handles of each list are tracked, whether a dim handle is. *)
Record Counters : Type := {
  hasConfig : bool;
  nDecorations : nat;
  nHighlights : nat;
  hasDim : bool
}.

Definition countersOf (t : PlaceHolderDecorator) : Counters :=
  {| hasConfig := bool_decide (is_Some (config t));
     nDecorations := length (decorations t);
     nHighlights := length (highlights t);
     hasDim := bool_decide (is_Some (dim t)) |}.

(** The counters a call leaves: an add counts one more when a config is
    stored and nothing otherwise, a remove resets its own counter. *)
Definition countersStep (k : Counters) (c : Call) : Counters :=
  match c with
  | RefreshConfig _ =>
      {| hasConfig := true; nDecorations := nDecorations k;
         nHighlights := nHighlights k; hasDim := hasDim k |}
  | AddDecorations _ _ =>
      {| hasConfig := hasConfig k;
         nDecorations := if hasConfig k then S (nDecorations k) else nDecorations k;
         nHighlights := nHighlights k; hasDim := hasDim k |}
  | AddHighlights _ _ _ =>
      {| hasConfig := hasConfig k; nDecorations := nDecorations k;
         nHighlights := if hasConfig k then S (nHighlights k) else nHighlights k;
         hasDim := hasDim k |}
  | DimEditor _ _ =>
      {| hasConfig := hasConfig k; nDecorations := nDecorations k;
         nHighlights := nHighlights k; hasDim := true |}
  | RemoveDecorations _ =>
      {| hasConfig := hasConfig k; nDecorations := 0;
         nHighlights := nHighlights k; hasDim := hasDim k |}
  | RemoveHighlights _ =>
      {| hasConfig := hasConfig k; nDecorations := nDecorations k;
         nHighlights := 0; hasDim := hasDim k |}
  | UndimEditor _ =>
      {| hasConfig := hasConfig k; nDecorations := nDecorations k;
         nHighlights := nHighlights k; hasDim := false |}
  end.

Definition shuffledConfig : Config.t :=
  Config.mk ["d"; "a"; "s"; "a"] (Config.placeholder demoConfig)
            (Config.highlight demoConfig).

Definition isAdd (c : Call) : bool := isAddDecorations c || isAddHighlights c.

(** The calls that read neither the config nor a cache. *)
Definition isHandleOnly (c : Call) : bool :=
  match c with
  | DimEditor _ _ | RemoveDecorations _ | RemoveHighlights _ | UndimEditor _ => true
  | _ => false
  end.



(** The value a completion carries, if it is normal. *)
Definition valueOf {A} (c : Completion A) : option A :=
  match c with Normal a => Some a | Throw _ => None end.

(** Where a target sits, whatever its code. *)
Definition positionOf (p : Placeholder.t) : N * N :=
  (Placeholder.line p, Placeholder.character p).

(** * Properties *)

(** ** The monad: how the pieces of a method compose *)

Lemma run_bind {A B} (m : M A) (f : A → M B) (w : World) :
  (m ≫= f) w
  = match m w with
    | (Normal a, w') => f a w'
    | (Throw e, w') => (Throw e, w')
    end.
Proof. reflexivity. Qed.

Lemma run_fmap {A B} (f : A → B) (m : M A) (w : World) :
  (f <$> m) w
  = match m w with
    | (Normal a, w') => (Normal (f a), w')
    | (Throw e, w') => (Throw e, w')
    end.
Proof. reflexivity. Qed.

(** One step of a method on a world whose fields are in view. *)
Ltac run_M :=
  repeat (first
    [ rewrite run_bind
    | rewrite run_fmap
    | progress unfold mret, M_ret, throw, deref, thisConfig, getThis, setThis,
        setDecorations, dispose, hostCall, readPlaceholderCache,
        readHighlightCache, liftCompletion,
        window.createTextEditorDecorationType ];
    cbv beta iota;
    cbn [self nextKey calls config placeholderCache highlightCache dim
         decorations highlights]).

Lemma mapM_reader {A B} (f : A → M B) (g : A → B) (w : World) (l : list A) :
  (∀ a, f a w = (Normal (g a), w)) →
  mapM f l w = (Normal (g <$> l), w).
Proof.
  intros Hf. induction l as [|a l IH]; [reflexivity|].
  change (mapM f (a :: l) w)
    with ((f a ≫= λ y, mapM f l ≫= λ k, mret (y :: k)) w).
  unfold mbind at 1. unfold M_bind at 1. rewrite Hf.
  unfold mbind at 1. unfold M_bind at 1. rewrite IH. reflexivity.
Qed.

(** A callback that throws on every element stops [map] at the first. *)
Lemma mapM_thrower {A B} (f : A → M B) (e : Error) (w : World) (a : A) (l : list A) :
  (∀ a, f a w = (Throw e, w)) →
  mapM f (a :: l) w = (Throw e, w).
Proof.
  intros Hf.
  change (mapM f (a :: l) w)
    with ((f a ≫= λ y, mapM f l ≫= λ k, mret (y :: k)) w).
  unfold mbind at 1. unfold M_bind at 1. by rewrite Hf.
Qed.

Lemma forEach_clear_release editor l w :
  forEach (λ item, setDecorations editor item [] ;; dispose item) l w
  = (Normal (), {| self := self w; nextKey := nextKey w;
                   calls := calls w ++ clearAndRelease editor l |}).
Proof.
  revert w. induction l as [|h l IH]; intros w.
  - cbn. rewrite app_nil_r. by destruct w.
  - cbn [forEach]. run_M. rewrite IH. cbn.
    by rewrite <- !app_assoc.
Qed.

(** ** The two caches *)

Lemma valueOf_Some {A} (c : Completion A) (a : A) :
  valueOf c = Some a ↔ c = Normal a.
Proof. destruct c; cbn; split; congruence. Qed.

Lemma reduce_Normal {A B} (f : A → B → Completion A) acc l r x :
  reduce f acc l = Normal r → x ∈ l → ∃ acc', is_Some (valueOf (f acc' x)).
Proof.
  revert acc. induction l as [|y l IH]; intros acc Hr Hin.
  - by apply elem_of_nil in Hin.
  - cbn [reduce] in Hr. destruct (f acc y) as [acc'|e] eqn:Hf; [|done].
    apply elem_of_cons in Hin as [->|Hin].
    + exists acc. rewrite Hf. by eexists.
    + by apply (IH acc').
Qed.

Lemma reduce_set_own {V} (g : string → Completion V) acc l r k :
  reduce (λ acc code, uri ← g code; Normal (JS.set acc code uri)) acc l = Normal r →
  JS.own r !! k
  = if decide (k ∈ l ∧ k ≠ "__proto__") then valueOf (g k) else JS.own acc !! k.
Proof.
  revert acc. induction l as [|x l IH]; intros acc Hr.
  - injection Hr as <-. rewrite decide_False; [done|].
    intros [Hin _]. by apply elem_of_nil in Hin.
  - cbn [reduce] in Hr.
    destruct (g x) as [u|e] eqn:Hg; [|done]. cbn in Hr.
    rewrite (IH _ Hr). unfold JS.set.
    destruct (decide (k ∈ l ∧ k ≠ "__proto__")) as [[Hin Hne]|Hout].
    + rewrite decide_True; [done|]. split; [by right|done].
    + destruct (decide (x = "__proto__")) as [->|Hx]; cbn [JS.own].
      * rewrite decide_False; [done|]. rewrite elem_of_cons.
        intros [[->|Hin] Hne]; [done|]. by apply Hout.
      * destruct (decide (k = x)) as [->|Hkx].
        -- rewrite lookup_insert_eq, decide_True, Hg; [done|].
           split; [by left|done].
        -- rewrite lookup_insert_ne by done. rewrite decide_False; [done|].
           rewrite elem_of_cons. intros [[->|Hin] Hne]; [done|]. by apply Hout.
Qed.

Lemma reduce_set_proto {V} (g : string → Completion V) acc l r :
  reduce (λ acc code, uri ← g code; Normal (JS.set acc code uri)) acc l = Normal r →
  JS.proto r
  = if decide ("__proto__" ∈ l) then valueOf (g "__proto__") else JS.proto acc.
Proof.
  revert acc. induction l as [|x l IH]; intros acc Hr.
  - injection Hr as <-. by rewrite decide_False by apply not_elem_of_nil.
  - cbn [reduce] in Hr.
    destruct (g x) as [u|e] eqn:Hg; [|done]. cbn in Hr.
    rewrite (IH _ Hr). unfold JS.set.
    destruct (decide ("__proto__" ∈ l)) as [Hin|Hout].
    + by rewrite decide_True by (by right).
    + destruct (decide (x = "__proto__")) as [->|Hx]; cbn [JS.proto].
      * by rewrite decide_True, Hg by left.
      * rewrite decide_False; [done|]. rewrite elem_of_cons. by intros [?|?].
Qed.

Lemma reduce_set_Normal {V} (g : string → Completion V) acc l r k :
  reduce (λ acc code, uri ← g code; Normal (JS.set acc code uri)) acc l = Normal r →
  k ∈ l → is_Some (valueOf (g k)).
Proof.
  intros Hr Hin. destruct (reduce_Normal _ _ _ _ _ Hr Hin) as [acc' Hs].
  cbv beta in Hs. destruct (g k); [by eexists|by destruct Hs].
Qed.

Lemma reduce_insert_lookup {V} (g : Z → Completion V) (acc : gmap Z V) l r k :
  reduce (λ acc width, uri ← g width; Normal (<[width := uri]> acc)) acc l = Normal r →
  r !! k = if decide (k ∈ l) then valueOf (g k) else acc !! k.
Proof.
  revert acc. induction l as [|x l IH]; intros acc Hr.
  - injection Hr as <-. by rewrite decide_False by apply not_elem_of_nil.
  - cbn [reduce] in Hr.
    destruct (g x) as [u|e] eqn:Hg; [|done]. cbn in Hr.
    rewrite (IH _ Hr).
    destruct (decide (k ∈ l)) as [Hin|Hout].
    + by rewrite decide_True by (by right).
    + destruct (decide (k = x)) as [->|Hkx].
      * by rewrite lookup_insert_eq, decide_True, Hg by left.
      * rewrite lookup_insert_ne by done.
        rewrite decide_False; [done|]. rewrite elem_of_cons. tauto.
Qed.

Lemma reduce_insert_Normal {V} (g : Z → Completion V) (acc : gmap Z V) l r k :
  reduce (λ acc width, uri ← g width; Normal (<[width := uri]> acc)) acc l = Normal r →
  k ∈ l → is_Some (valueOf (g k)).
Proof.
  intros Hr Hin. destruct (reduce_Normal _ _ _ _ _ Hr Hin) as [acc' Hs].
  cbv beta in Hs. destruct (g k); [by eexists|by destruct Hs].
Qed.

Lemma elem_of_highlightWidths (width : Z) :
  width ∈ highlightWidths ↔ 1 ≤ width ≤ 10.
Proof.
  unfold highlightWidths. cbn. rewrite !elem_of_cons, elem_of_nil. lia.
Qed.

Lemma get_placeholderCacheOf config pc code :
  placeholderCacheOf config = Normal pc →
  code ∈ Config.characters config →
  ∃ uri, buildUriForPlaceholder config code = Normal uri
         ∧ JS.get pc code = JS.Defined uri.
Proof.
  intros Hpc Hin. unfold placeholderCacheOf in Hpc.
  destruct (reduce_set_Normal _ _ _ _ _ Hpc Hin) as [uri Huri].
  exists uri. split; [by apply valueOf_Some|].
  unfold JS.get. rewrite (reduce_set_own _ _ _ _ code Hpc).
  destruct (decide (code = "__proto__")) as [->|Hne].
  - rewrite decide_False by (by intros [_ ?]). cbn [JS.own JS.emptyObject].
    rewrite lookup_empty, (reduce_set_proto _ _ _ _ Hpc), decide_True by done.
    by rewrite Huri.
  - rewrite decide_True by done. by rewrite Huri.
Qed.

Lemma get_placeholderCacheOf_miss config pc code :
  placeholderCacheOf config = Normal pc →
  code ∉ Config.characters config →
  "__proto__" ∉ Config.characters config →
  JS.get pc code
  = if decide (code ∈ JS.objectPrototypeKeys) then JS.FromPrototype None code
    else JS.Undefined.
Proof.
  intros Hpc Hout Hproto. unfold placeholderCacheOf in Hpc.
  unfold JS.get. rewrite (reduce_set_own _ _ _ _ code Hpc).
  rewrite decide_False by (by intros [? _]). cbn [JS.own JS.emptyObject].
  rewrite lookup_empty, (reduce_set_proto _ _ _ _ Hpc), decide_False by done.
  done.
Qed.

Lemma own_placeholderCacheOf config pc code uri :
  placeholderCacheOf config = Normal pc →
  JS.own pc !! code = Some uri →
  code ∈ Config.characters config
  ∧ buildUriForPlaceholder config code = Normal uri.
Proof.
  intros Hpc. unfold placeholderCacheOf in Hpc.
  rewrite (reduce_set_own _ _ _ _ code Hpc).
  destruct (decide _) as [[Hin _]|_];
    [|unfold JS.emptyObject; cbn [JS.own]; by rewrite lookup_empty].
  intros Huri%valueOf_Some. by split.
Qed.

Lemma proto_placeholderCacheOf config pc :
  placeholderCacheOf config = Normal pc →
  JS.proto pc
  = if decide ("__proto__" ∈ Config.characters config)
    then valueOf (buildUriForPlaceholder config "__proto__") else None.
Proof.
  intros Hpc. unfold placeholderCacheOf in Hpc.
  by rewrite (reduce_set_proto _ _ _ _ Hpc).
Qed.

Lemma lookup_highlightCacheOf config hc width :
  highlightCacheOf config = Normal hc →
  hc !! width
  = if decide (1 ≤ width ≤ 10)
    then valueOf (buildUriForHighlight config width) else None.
Proof.
  intros Hhc. unfold highlightCacheOf in Hhc.
  rewrite (reduce_insert_lookup _ _ _ _ width Hhc), lookup_empty.
  destruct (decide (1 ≤ width ≤ 10)) as [Hin|Hout].
  - by rewrite decide_True by (by apply elem_of_highlightWidths).
  - by rewrite decide_False by (by rewrite elem_of_highlightWidths).
Qed.

Lemma highlightCacheOf_builds config hc width :
  highlightCacheOf config = Normal hc → 1 ≤ width ≤ 10 →
  ∃ uri, buildUriForHighlight config width = Normal uri ∧ hc !! width = Some uri.
Proof.
  intros Hhc Hin. rewrite (lookup_highlightCacheOf _ _ _ Hhc), decide_True by done.
  unfold highlightCacheOf in Hhc.
  destruct (reduce_insert_Normal _ _ _ _ width Hhc) as [uri Huri];
    [by apply elem_of_highlightWidths|].
  exists uri. split; [by apply valueOf_Some|done].
Qed.

(** *** The three ways a [refreshConfig] ends *)

Lemma refreshConfig_eq config0 pc hc w :
  placeholderCacheOf config0 = Normal pc →
  highlightCacheOf config0 = Normal hc →
  refreshConfig config0 w
  = (Normal (),
     {| self := {| config := Some config0;
                   placeholderCache := Some pc;
                   highlightCache := Some hc;
                   dim := dim (self w);
                   decorations := decorations (self w);
                   highlights := highlights (self w) |};
        nextKey := nextKey w; calls := calls w |}).
Proof.
  intros Hpc Hhc.
  unfold refreshConfig, updateCache, set_config, set_placeholderCache,
    set_highlightCache. run_M.
  unfold placeholderCacheOf in Hpc. rewrite Hpc. run_M.
  unfold highlightCacheOf in Hhc. rewrite Hhc. by run_M.
Qed.

(** A glyph that cannot be built: the new config is stored, the caches
    are the ones of before. *)
Lemma refreshConfig_throws_placeholder config0 e w :
  placeholderCacheOf config0 = Throw e →
  refreshConfig config0 w
  = (Throw e,
     {| self := set_config (Some config0) (self w);
        nextKey := nextKey w; calls := calls w |}).
Proof.
  intros Hpc.
  unfold refreshConfig, updateCache, set_config, set_placeholderCache,
    set_highlightCache. run_M.
  unfold placeholderCacheOf in Hpc. rewrite Hpc. by run_M.
Qed.

(** A bar that cannot be built: the new config and the new placeholder
    cache are stored, the highlight cache is the one of before. *)
Lemma refreshConfig_throws_highlight config0 pc e w :
  placeholderCacheOf config0 = Normal pc →
  highlightCacheOf config0 = Throw e →
  refreshConfig config0 w
  = (Throw e,
     {| self := set_placeholderCache (Some pc) (set_config (Some config0) (self w));
        nextKey := nextKey w; calls := calls w |}).
Proof.
  intros Hpc Hhc.
  unfold refreshConfig, updateCache, set_config, set_placeholderCache,
    set_highlightCache. run_M.
  unfold placeholderCacheOf in Hpc. rewrite Hpc. run_M.
  unfold highlightCacheOf in Hhc. rewrite Hhc. by run_M.
Qed.

(** ** What each method does to the world *)

Lemma Range_new4_point (l c : N) :
  Range.new4 l c l c = Range.mk (Position.new l c) (Position.new l c).
Proof.
  unfold Range.new4, Range.new, Position.isBefore. cbn.
  by rewrite !N.ltb_irrefl, andb_false_r.
Qed.

Lemma addDecorations_eq config0 cache editor placeholders w :
  config (self w) = Some config0 →
  placeholderCache (self w) = Some cache →
  let made := {| key := nextKey w |} in
  addDecorations editor placeholders w
  = (Normal (),
     {| self := set_decorations (decorations (self w) ++ [made]) (self w);
        nextKey := S (nextKey w);
        calls := calls w ++
          [CreateTextEditorDecorationType made
             (glyphFootprint (PlaceholderConfig.width (Config.placeholder config0))
                             (PlaceholderConfig.height (Config.placeholder config0)));
           SetDecorations editor made
             ((λ p, pointBinding (Placeholder.line p) (Placeholder.character p + 1)
                      (JS.get cache (Placeholder.placeholder p))) <$> placeholders)] |}).
Proof.
  intros Hconfig Hcache made. unfold addDecorations.
  destruct w as [[cfg pc hc d decs his] nk cs]. cbn in Hconfig, Hcache, made. subst.
  unfold addDecorations. run_M.
  rewrite (mapM_reader _ (λ p, pointBinding (Placeholder.line p)
             (Placeholder.character p + 1) (JS.get cache (Placeholder.placeholder p)))).
  2:{ intros p. run_M. by rewrite Range_new4_point. }
  run_M. unfold glyphFootprint, set_decorations.
  by rewrite !Z.mul_1_l, <- app_assoc.
Qed.

Lemma addHighlights_eq config0 cache editor placeholders highlightCount w :
  config (self w) = Some config0 →
  highlightCache (self w) = Some cache →
  let made := {| key := nextKey w |} in
  addHighlights editor placeholders highlightCount w
  = (Normal (),
     {| self := set_highlights (highlights (self w) ++ [made]) (self w);
        nextKey := S (nextKey w);
        calls := calls w ++
          [CreateTextEditorDecorationType made
             (glyphFootprint (PlaceholderConfig.width (Config.placeholder config0))
                             (PlaceholderConfig.height (Config.placeholder config0)));
           SetDecorations editor made
             ((λ p, pointBinding (Placeholder.line p) (Placeholder.character p + 2)
                      (JS.ofOption (cache !! highlightCount))) <$> placeholders)] |}).
Proof.
  intros Hconfig Hcache made.
  destruct w as [[cfg pc hc d decs his] nk cs]. cbn in Hconfig, Hcache, made. subst.
  unfold addHighlights. run_M.
  rewrite (mapM_reader _ (λ p, pointBinding (Placeholder.line p)
             (Placeholder.character p + 2) (JS.ofOption (cache !! highlightCount)))).
  2:{ intros p. run_M. by rewrite Range_new4_point. }
  run_M. unfold glyphFootprint, set_highlights.
  by rewrite !Z.mul_1_l, <- app_assoc.
Qed.

(** Before any config is stored both methods stop at their first line. *)
Lemma addDecorations_unconfigured editor placeholders w :
  config (self w) = None →
  addDecorations editor placeholders w = (Throw TypeError, w).
Proof.
  intros Hconfig. unfold addDecorations. run_M. rewrite Hconfig. by run_M.
Qed.

Lemma addHighlights_unconfigured editor placeholders highlightCount w :
  config (self w) = None →
  addHighlights editor placeholders highlightCount w = (Throw TypeError, w).
Proof.
  intros Hconfig. unfold addHighlights. run_M. rewrite Hconfig. by run_M.
Qed.

(** With a config stored and the cache missing, an empty batch reads
    nothing and goes through. *)
Lemma addDecorations_empty config0 editor w :
  config (self w) = Some config0 →
  let made := {| key := nextKey w |} in
  addDecorations editor [] w
  = (Normal (),
     {| self := set_decorations (decorations (self w) ++ [made]) (self w);
        nextKey := S (nextKey w);
        calls := calls w ++
          [CreateTextEditorDecorationType made
             (glyphFootprint (PlaceholderConfig.width (Config.placeholder config0))
                             (PlaceholderConfig.height (Config.placeholder config0)));
           SetDecorations editor made []] |}).
Proof.
  intros Hconfig made.
  destruct w as [[cfg pc hc d decs his] nk cs]. cbn in Hconfig, made. subst.
  unfold addDecorations. run_M. cbn [mapM]. run_M.
  unfold glyphFootprint, set_decorations.
  by rewrite !Z.mul_1_l, <- app_assoc.
Qed.

Lemma addHighlights_empty config0 editor highlightCount w :
  config (self w) = Some config0 →
  let made := {| key := nextKey w |} in
  addHighlights editor [] highlightCount w
  = (Normal (),
     {| self := set_highlights (highlights (self w) ++ [made]) (self w);
        nextKey := S (nextKey w);
        calls := calls w ++
          [CreateTextEditorDecorationType made
             (glyphFootprint (PlaceholderConfig.width (Config.placeholder config0))
                             (PlaceholderConfig.height (Config.placeholder config0)));
           SetDecorations editor made []] |}).
Proof.
  intros Hconfig made.
  destruct w as [[cfg pc hc d decs his] nk cs]. cbn in Hconfig, made. subst.
  unfold addHighlights. run_M. cbn [mapM]. run_M.
  unfold glyphFootprint, set_highlights.
  by rewrite !Z.mul_1_l, <- app_assoc.
Qed.

(** With a config stored and the cache missing, a batch with a target
    makes the handle and then throws at the first read of the cache: the
    handle is neither tracked nor bound. *)
Lemma addDecorations_uncached config0 editor p ps w :
  config (self w) = Some config0 →
  placeholderCache (self w) = None →
  addDecorations editor (p :: ps) w
  = (Throw TypeError,
     {| self := self w; nextKey := S (nextKey w);
        calls := calls w ++
          [CreateTextEditorDecorationType {| key := nextKey w |}
             (glyphFootprint (PlaceholderConfig.width (Config.placeholder config0))
                             (PlaceholderConfig.height (Config.placeholder config0)))] |}).
Proof.
  intros Hconfig Hcache.
  destruct w as [[cfg pc hc d decs his] nk cs]. cbn in Hconfig, Hcache. subst.
  unfold addDecorations. run_M.
  rewrite (mapM_thrower _ TypeError); [|intros a; by run_M].
  unfold glyphFootprint. by rewrite !Z.mul_1_l.
Qed.

Lemma addHighlights_uncached config0 editor p ps highlightCount w :
  config (self w) = Some config0 →
  highlightCache (self w) = None →
  addHighlights editor (p :: ps) highlightCount w
  = (Throw TypeError,
     {| self := self w; nextKey := S (nextKey w);
        calls := calls w ++
          [CreateTextEditorDecorationType {| key := nextKey w |}
             (glyphFootprint (PlaceholderConfig.width (Config.placeholder config0))
                             (PlaceholderConfig.height (Config.placeholder config0)))] |}).
Proof.
  intros Hconfig Hcache.
  destruct w as [[cfg pc hc d decs his] nk cs]. cbn in Hconfig, Hcache. subst.
  unfold addHighlights. run_M.
  rewrite (mapM_thrower _ TypeError); [|intros a; by run_M].
  unfold glyphFootprint. by rewrite !Z.mul_1_l.
Qed.


Lemma undimEditor_eq editor w :
  undimEditor editor w
  = (Normal (),
     {| self := set_dim None (self w); nextKey := nextKey w;
        calls := calls w ++ undimCalls editor (dim (self w)) |}).
Proof.
  destruct w as [[cfg pc hc [d|] decs his] nk cs]; unfold undimEditor; run_M.
  - cbn. by rewrite <- app_assoc.
  - cbn. by rewrite app_nil_r.
Qed.

Lemma MAX_VALUE_pos : (0 <? JS.MAX_VALUE)%N = true.
Proof. by vm_compute. Qed.

Lemma Range_new_wholeBuffer editor :
  Range.new (Position.new 0 0)
            (Position.new (lineCount (document editor)) JS.MAX_VALUE)
  = wholeBuffer editor.
Proof.
  unfold Range.new, Position.isBefore, wholeBuffer.
  cbn [Position.line Position.character]. rewrite MAX_VALUE_pos.
  by destruct (lineCount (document editor)).
Qed.

Lemma dimEditor_eq editor ranges w :
  let made := {| key := nextKey w |} in
  dimEditor editor ranges w
  = (Normal (),
     {| self := set_dim (Some made) (self w); nextKey := S (nextKey w);
        calls := calls w ++ undimCalls editor (dim (self w)) ++
          [CreateTextEditorDecorationType made dimStyle;
           SetDecorations editor made (ofRange <$> dimmedRanges editor ranges)] |}).
Proof.
  intros made. unfold dimEditor. rewrite run_bind, undimEditor_eq.
  run_M. rewrite Range_new_wholeBuffer. unfold set_dim. cbn.
  rewrite <- !app_assoc. cbn.
  by destruct ranges as [[|r rs]|].
Qed.

Lemma removeDecorations_eq editor w :
  removeDecorations editor w
  = (Normal (),
     {| self := set_decorations [] (self w); nextKey := nextKey w;
        calls := calls w ++ clearAndRelease editor (decorations (self w)) |}).
Proof.
  unfold removeDecorations. rewrite run_bind. unfold getThis at 1. cbv beta iota.
  rewrite run_bind, forEach_clear_release. by run_M.
Qed.

Lemma removeHighlights_eq editor w :
  removeHighlights editor w
  = (Normal (),
     {| self := set_highlights [] (self w); nextKey := nextKey w;
        calls := calls w ++ clearAndRelease editor (highlights (self w)) |}).
Proof.
  unfold removeHighlights. rewrite run_bind. unfold getThis at 1. cbv beta iota.
  rewrite run_bind, forEach_clear_release. by run_M.
Qed.



(** ** The glyph builder *)


Lemma append_String (x : ascii) (a b : string) :
  String x a +:+ b = String x (a +:+ b).
Proof. reflexivity. Qed.

Lemma append_empty_l (a : string) : "" +:+ a = a.
Proof. reflexivity. Qed.

(** Bring the characters of the literals in a concatenation to the front. *)
Ltac push_literals := rewrite ?append_String, ?append_empty_l.

(** *** Strings the builder takes as they are *)








(** *** The steps of a build *)


Lemma bind_Throw {A B} (e : Error) (f : A → Completion B) :
  (Throw e ≫= f) = Throw e.
Proof. reflexivity. Qed.


Lemma att_Throw name value node :
  builder.isLegal (builder.attEscape value) = false →
  builder.att name value node = Throw InvalidCharacter.
Proof.
  intros Hlegal. unfold builder.att, builder.assertLegalChar. by rewrite Hlegal.
Qed.




Lemma text_Throw value node :
  builder.isLegal (builder.elEscape value) = false →
  builder.text value node = Throw InvalidCharacter.
Proof.
  intros Hlegal. unfold builder.text, builder.assertLegalChar. by rewrite Hlegal.
Qed.


Lemma assoc_snoc_ne name k v l :
  k ≠ name → builder.assoc name (l ++ [(k, v)]) = builder.assoc name l.
Proof.
  intros Hne. induction l as [|[k' v'] l IH]; cbn [app builder.assoc].
  - by rewrite decide_False.
  - by rewrite IH.
Qed.








(** ** The glyphs *)



(** ** Sequences of calls *)

Lemma runCalls_snoc cs c w :
  runCalls (cs ++ [c]) w = (call c (runCalls cs w)).2.
Proof. unfold runCalls. by rewrite foldl_snoc. Qed.

Lemma lastRefresh_snoc cs c :
  lastRefresh (cs ++ [c])
  = match c with RefreshConfig config0 => Some config0 | _ => lastRefresh cs end.
Proof. unfold lastRefresh. by rewrite foldl_snoc. Qed.

(** The three ways an [addDecorations] ends: before anything is done,
    after the handle is made, or normally with the handle tracked. *)
Lemma addDecorations_cases editor placeholders w :
  let made := {| key := nextKey w |} in
  addDecorations editor placeholders w = (Throw TypeError, w)
  ∨ (∃ o, isDimStyle o = false ∧ ¬ whole (self w)
          ∧ addDecorations editor placeholders w
          = (Throw TypeError,
             {| self := self w; nextKey := S (nextKey w);
                calls := calls w ++ [CreateTextEditorDecorationType made o] |}))
  ∨ (∃ o bindings, isDimStyle o = false
          ∧ addDecorations editor placeholders w
          = (Normal (),
             {| self := set_decorations (decorations (self w) ++ [made]) (self w);
                nextKey := S (nextKey w);
                calls := calls w ++ [CreateTextEditorDecorationType made o;
                                     SetDecorations editor made bindings] |})).
Proof.
  intros made.
  destruct (config (self w)) as [config0|] eqn:Hconfig;
    [|left; by apply addDecorations_unconfigured].
  right. destruct placeholders as [|p ps].
  - right. eexists _, _. split; [|by apply addDecorations_empty]. done.
  - destruct (placeholderCache (self w)) as [cache|] eqn:Hcache.
    + right. eexists _, _. split; [|by eapply addDecorations_eq]. done.
    + left. eexists. split; [|split; [|by apply addDecorations_uncached]];
        [done|].
      intros [(Hnone & _)|(_ & [pc Hpc] & _)]; congruence.
Qed.

Lemma addHighlights_cases editor placeholders highlightCount w :
  let made := {| key := nextKey w |} in
  addHighlights editor placeholders highlightCount w = (Throw TypeError, w)
  ∨ (∃ o, isDimStyle o = false ∧ ¬ whole (self w)
          ∧ addHighlights editor placeholders highlightCount w
          = (Throw TypeError,
             {| self := self w; nextKey := S (nextKey w);
                calls := calls w ++ [CreateTextEditorDecorationType made o] |}))
  ∨ (∃ o bindings, isDimStyle o = false
          ∧ addHighlights editor placeholders highlightCount w
          = (Normal (),
             {| self := set_highlights (highlights (self w) ++ [made]) (self w);
                nextKey := S (nextKey w);
                calls := calls w ++ [CreateTextEditorDecorationType made o;
                                     SetDecorations editor made bindings] |})).
Proof.
  intros made.
  destruct (config (self w)) as [config0|] eqn:Hconfig;
    [|left; by apply addHighlights_unconfigured].
  right. destruct placeholders as [|p ps].
  - right. eexists _, _. split; [|by apply addHighlights_empty]. done.
  - destruct (highlightCache (self w)) as [cache|] eqn:Hcache.
    + right. eexists _, _. split; [|by eapply addHighlights_eq]. done.
    + left. eexists. split; [|split; [|by apply addHighlights_uncached]];
        [done|].
      intros [(Hnone & _)|(_ & _ & [hc Hhc])]; congruence.
Qed.

(** Only [refreshConfig] writes the config or a cache. *)
Lemma call_keeps_config c w :
  match c with RefreshConfig _ => False | _ => True end →
  config (self (call c w).2) = config (self w)
  ∧ placeholderCache (self (call c w).2) = placeholderCache (self w)
  ∧ highlightCache (self (call c w).2) = highlightCache (self w).
Proof.
  intros Hc.
  destruct c as [?|e ps|e ps n|e rs|e|e|e]; cbn [call]; [done|..].
  - destruct (addDecorations_cases e ps w)
      as [->|[(o & _ & _ & ->)|(o & bs & _ & ->)]]; done.
  - destruct (addHighlights_cases e ps n w)
      as [->|[(o & _ & _ & ->)|(o & bs & _ & ->)]]; done.
  - by rewrite dimEditor_eq.
  - by rewrite removeDecorations_eq.
  - by rewrite removeHighlights_eq.
  - by rewrite undimEditor_eq.
Qed.

Lemma refreshConfig_builds config0 w :
  builds config0 → cachesBuiltFrom config0 (self (refreshConfig config0 w).2).
Proof.
  intros (pc & hc & Hpc & Hhc). rewrite (refreshConfig_eq _ _ _ _ Hpc Hhc).
  by exists pc, hc.
Qed.

Lemma call_keeps_caches config0 c w :
  cachesBuiltFrom config0 (self w) →
  match c with RefreshConfig _ => False | _ => True end →
  cachesBuiltFrom config0 (self (call c w).2).
Proof.
  intros (pc & hc & Hconfig & Hpc & Hhc & Hbuilt) Hc.
  destruct (call_keeps_config c w Hc) as (H1 & H2 & H3).
  unfold cachesBuiltFrom. rewrite H1, H2, H3. by exists pc, hc.
Qed.

Lemma runCalls_caches cs config0 w :
  lastRefresh cs = Some config0 → builds config0 →
  cachesBuiltFrom config0 (self (runCalls cs w)).
Proof.
  intros Hlast Hbuilds. revert Hlast.
  induction cs as [|c cs IH] using rev_ind; [done|].
  rewrite lastRefresh_snoc, runCalls_snoc. intros Hlast.
  destruct c; try (apply call_keeps_caches; [by apply IH|done]).
  injection Hlast as ->. by apply refreshConfig_builds.
Qed.

(** Once a config and both caches are stored they stay stored. *)
Lemma call_ready c w : ready (self w) → ready (self (call c w).2).
Proof.
  intros (Hconfig & Hpc & Hhc).
  assert (∀ c', match c' with RefreshConfig _ => False | _ => True end →
                ready (self (call c' w).2)) as Hkeeps.
  { intros c' Hc. destruct (call_keeps_config c' w Hc) as (H1 & H2 & H3).
    unfold ready. by rewrite H1, H2, H3. }
  destruct c as [config0|e ps|e ps n|e rs|e|e|e]; try (by apply Hkeeps).
  cbn [call].
  destruct (placeholderCacheOf config0) as [pc|err] eqn:Hpc0.
  - destruct (highlightCacheOf config0) as [hc|err] eqn:Hhc0.
    + rewrite (refreshConfig_eq _ _ _ _ Hpc0 Hhc0). by repeat split.
    + rewrite (refreshConfig_throws_highlight _ _ _ _ Hpc0 Hhc0).
      by repeat split.
  - rewrite (refreshConfig_throws_placeholder _ _ _ Hpc0). by repeat split.
Qed.

Lemma runCalls_ready cs w : ready (self w) → ready (self (runCalls cs w)).
Proof.
  intros Hw. induction cs as [|c cs IH] using rev_ind; [done|].
  rewrite runCalls_snoc. by apply call_ready.
Qed.

(** ** The caches *)

(** C1 (amended).  Take a config whose glyphs and bars can all be
    built.  [refreshConfig] given it completes normally, and after any
    sequence of calls whose last [refreshConfig] was given it, whatever
    the world it started in and whatever calls followed, the decorator
    holds that config and two caches such that
    - every code of [config.characters] reads its glyph, built from the
      config;
    - every own property of the placeholder cache is the glyph, built
      from the config, of a code of [config.characters], so none comes
      from an earlier config;
    - the prototype is [Object.prototype], unless [__proto__] is among
      the codes, whose glyph is then the prototype;
    - the highlight cache holds a width exactly when it is one of 1..10,
      and then its bar, built from the config. *)
Theorem refreshConfig_rebuilds_caches (cs : list Call) (config0 : Config.t) (w : World) :
  builds config0 →
  lastRefresh cs = Some config0 →
  let t := self (runCalls cs w) in
  (refreshConfig config0 w).1 = Normal ()
  ∧ config t = Some config0
  ∧ ∃ (pc : JS.Object Uri.t) (hc : gmap Z Uri.t),
      placeholderCache t = Some pc
      ∧ highlightCache t = Some hc
      ∧ (∀ code : string, code ∈ Config.characters config0 →
           ∃ uri, buildUriForPlaceholder config0 code = Normal uri
                  ∧ JS.get pc code = JS.Defined uri)
      ∧ (∀ (code : string) (uri : Uri.t), JS.own pc !! code = Some uri →
           code ∈ Config.characters config0
           ∧ buildUriForPlaceholder config0 code = Normal uri)
      ∧ JS.proto pc
        = (if decide ("__proto__" ∈ Config.characters config0)
           then valueOf (buildUriForPlaceholder config0 "__proto__") else None)
      ∧ (∀ width : Z, 1 ≤ width ≤ 10 →
           ∃ uri, buildUriForHighlight config0 width = Normal uri
                  ∧ hc !! width = Some uri)
      ∧ (∀ width : Z, ¬ 1 ≤ width ≤ 10 → hc !! width = None).
Proof.
  intros Hbuilds Hlast t.
  destruct (runCalls_caches cs config0 w Hlast Hbuilds)
    as (pc & hc & Hconfig & Hpc & Hhc & Hpc0 & Hhc0).
  split; [by rewrite (refreshConfig_eq _ _ _ _ Hpc0 Hhc0)|].
  split; [done|]. exists pc, hc.
  split; [done|]. split; [done|]. split; [|split; [|split; [|split]]].
  - intros code. by apply get_placeholderCacheOf.
  - intros code uri. by apply own_placeholderCacheOf.
  - by apply proto_placeholderCacheOf.
  - intros width. by apply highlightCacheOf_builds.
  - intros width Hout.
    by rewrite (lookup_highlightCacheOf _ _ _ Hhc0), decide_False.
Qed.

(** ** Binding targets *)

Lemma darkIconOf_pointBinding l c icon : darkIconOf (pointBinding l c icon) = icon.
Proof. reflexivity. Qed.

Lemma lightIconOf_pointBinding l c icon : lightIconOf (pointBinding l c icon) = icon.
Proof. reflexivity. Qed.

(** C2. In a world with a config and both caches, [addDecorations] and
    [addHighlights] complete normally and end with one [setDecorations]
    whose bindings are, target by target and in order, the empty range
    at (line, character + 1) for a placeholder and at
    (line, character + 2) for a highlight. *)
Theorem anchor_columns (config0 : Config.t) (pc : JS.Object Uri.t)
        (hc : gmap Z Uri.t) (editor : TextEditor)
        (placeholders : list Placeholder.t) (highlightCount : Z) (w : World) :
  config (self w) = Some config0 →
  placeholderCache (self w) = Some pc →
  highlightCache (self w) = Some hc →
  let anchor (offset : N) (p : Placeholder.t) :=
    Range.mk (Position.new (Placeholder.line p) (Placeholder.character p + offset))
             (Position.new (Placeholder.line p) (Placeholder.character p + offset)) in
  (∃ w' earlier made bindings,
      addDecorations editor placeholders w = (Normal (), w')
      ∧ calls w' = earlier ++ [SetDecorations editor made bindings]
      ∧ range <$> bindings = anchor 1%N <$> placeholders
      ∧ Forall (λ b, Range.isEmpty (range b) = true) bindings)
  ∧ (∃ w' earlier made bindings,
      addHighlights editor placeholders highlightCount w = (Normal (), w')
      ∧ calls w' = earlier ++ [SetDecorations editor made bindings]
      ∧ range <$> bindings = anchor 2%N <$> placeholders
      ∧ Forall (λ b, Range.isEmpty (range b) = true) bindings).
Proof.
  intros Hconfig Hpc Hhc anchor. split.
  - rewrite (addDecorations_eq _ _ _ _ _ Hconfig Hpc).
    eexists _, (calls w ++ [_]), _, _. split; [reflexivity|].
    split; [by cbn [calls]; rewrite <- app_assoc|]. split.
    + by rewrite <- list_fmap_compose.
    + apply Forall_fmap, Forall_forall. intros p _. cbn.
      by apply bool_decide_eq_true.
  - rewrite (addHighlights_eq _ _ _ _ _ _ Hconfig Hhc).
    eexists _, (calls w ++ [_]), _, _. split; [reflexivity|].
    split; [by cbn [calls]; rewrite <- app_assoc|]. split.
    + by rewrite <- list_fmap_compose.
    + apply Forall_fmap, Forall_forall. intros p _. cbn.
      by apply bool_decide_eq_true.
Qed.

(** C3 (amended).  With the caches built from [config0] and [__proto__]
    not among its codes, neither method throws.  [addDecorations]
    shows, for each target in order and whatever the other targets are:
    the glyph built from [config0] for its code when the code is among
    [config0.characters]; otherwise what [Object.prototype] holds under
    the code when the code names one of its properties ([constructor],
    [toString], ...), and nothing when it names none.  [addHighlights]
    shows the same thing for every target: the bar built from [config0]
    for [highlightCount] when that is one of 1..10, and nothing
    otherwise (0 and 11 included). *)
Theorem cache_miss_is_soft (config0 : Config.t) (editor : TextEditor)
        (placeholders : list Placeholder.t) (highlightCount : Z) (w : World) :
  cachesBuiltFrom config0 (self w) →
  "__proto__" ∉ Config.characters config0 →
  (∃ w' earlier made bindings,
      addDecorations editor placeholders w = (Normal (), w')
      ∧ calls w' = earlier ++ [SetDecorations editor made bindings]
      ∧ Forall2 (λ b p,
           let code := Placeholder.placeholder p in
           if decide (code ∈ Config.characters config0)
           then ∃ uri, buildUriForPlaceholder config0 code = Normal uri
                       ∧ darkIconOf b = JS.Defined uri
           else if decide (code ∈ JS.objectPrototypeKeys)
           then darkIconOf b = JS.FromPrototype None code
           else darkIconOf b = JS.Undefined) bindings placeholders
      ∧ lightIconOf <$> bindings = darkIconOf <$> bindings)
  ∧ (∃ w' earlier made bindings icon,
      addHighlights editor placeholders highlightCount w = (Normal (), w')
      ∧ calls w' = earlier ++ [SetDecorations editor made bindings]
      ∧ length bindings = length placeholders
      ∧ Forall (λ b, darkIconOf b = icon ∧ lightIconOf b = icon) bindings
      ∧ if decide (1 ≤ highlightCount ≤ 10)
        then ∃ uri, buildUriForHighlight config0 highlightCount = Normal uri
                    ∧ icon = JS.Defined uri
        else icon = JS.Undefined).
Proof.
  intros (pc & hc & Hconfig & Hpc & Hhc & Hpc0 & Hhc0) Hproto. split.
  - rewrite (addDecorations_eq _ _ _ _ _ Hconfig Hpc).
    eexists _, (calls w ++ [_]), _, _. split; [reflexivity|].
    split; [by cbn [calls]; rewrite <- app_assoc|].
    rewrite <- !list_fmap_compose. split; [|done].
    apply Forall2_fmap_l, Forall_Forall2_diag, Forall_forall.
    intros p _. unfold compose. cbv beta zeta. rewrite !darkIconOf_pointBinding.
    destruct (decide (Placeholder.placeholder p ∈ Config.characters config0))
      as [Hin|Hout].
    + by apply get_placeholderCacheOf.
    + rewrite (get_placeholderCacheOf_miss _ _ _ Hpc0 Hout Hproto).
      by destruct (decide _).
  - rewrite (addHighlights_eq _ _ _ _ _ _ Hconfig Hhc).
    eexists _, (calls w ++ [_]), _, _, (JS.ofOption (hc !! highlightCount)).
    split; [reflexivity|].
    split; [by cbn [calls]; rewrite <- app_assoc|].
    split; [by rewrite length_fmap|].
    split; [apply Forall_fmap, Forall_forall; by intros p _|].
    destruct (decide (1 ≤ highlightCount ≤ 10)) as [Hin|Hout].
    + destruct (highlightCacheOf_builds _ _ _ Hhc0 Hin) as (uri & Huri & ->).
      by exists uri.
    + by rewrite (lookup_highlightCacheOf _ _ _ Hhc0), decide_False.
Qed.

(** ** Calls made before the first [refreshConfig] *)

(** C4 (amended).  While no config is stored, [addDecorations] and
    [addHighlights], whatever the count, throw a [TypeError] and leave
    the decorator and the host as they were.  Once the caches are built
    from a config, [addHighlights] with a count outside 1..10 does not
    throw and shows no resource at any of its targets. *)
Theorem add_unconfigured_or_out_of_range
        (editor : TextEditor) (placeholders : list Placeholder.t)
        (highlightCount : Z) (t : PlaceHolderDecorator) (k : nat)
        (cs : list HostCall) :
  (let wNew := {| self := set_config None t; nextKey := k; calls := cs |} in
   addDecorations editor placeholders wNew = (Throw TypeError, wNew)
   ∧ addHighlights editor placeholders highlightCount wNew = (Throw TypeError, wNew))
  ∧ ∀ (w : World) (config0 : Config.t),
      cachesBuiltFrom config0 (self w) →
      ¬ (1 ≤ highlightCount ≤ 10) →
      ∃ w' earlier made bindings,
        addHighlights editor placeholders highlightCount w = (Normal (), w')
        ∧ calls w' = earlier ++ [SetDecorations editor made bindings]
        ∧ length bindings = length placeholders
        ∧ Forall (λ b, darkIconOf b = JS.Undefined
                       ∧ lightIconOf b = JS.Undefined) bindings.
Proof.
  split.
  - cbv zeta.
    split; [by apply addDecorations_unconfigured|by apply addHighlights_unconfigured].
  - intros w config0 (pc & hc & Hconfig & Hpc & Hhc & Hpc0 & Hhc0) Hrange.
    rewrite (addHighlights_eq _ _ _ _ _ _ Hconfig Hhc).
    eexists _, (calls w ++ [_]), _, _. split; [reflexivity|].
    split; [by cbn [calls]; rewrite <- app_assoc|].
    split; [by rewrite length_fmap|].
    apply Forall_fmap, Forall_forall. intros p _. cbv beta.
    unfold compose. rewrite darkIconOf_pointBinding, lightIconOf_pointBinding.
    by rewrite (lookup_highlightCacheOf _ _ _ Hhc0), decide_False.
Qed.

(** ** Dimming *)

(** C6. [dimEditor] always completes normally and ends with one
    [setDecorations] of the dim handle it has just made and stored.
    Given no list or an empty list, that call dims the single range from
    (0, 0) to (lineCount, [Number.MAX_VALUE]) of the editor's document;
    given a list with at least one range, it dims exactly that list. *)
Theorem dimEditor_ranges (editor : TextEditor) (r : Range.t) (rs : list Range.t)
        (w : World) :
  let whole :=
    Range.mk (Position.new 0 0)
             (Position.new (lineCount (document editor)) JS.MAX_VALUE) in
  let dims (ranges : option (list Range.t)) (target : list Range.t) :=
    ∃ w' earlier made,
      dimEditor editor ranges w = (Normal (), w')
      ∧ dim (self w') = Some made
      ∧ calls w' = earlier ++ [CreateTextEditorDecorationType made dimStyle;
                               SetDecorations editor made (ofRange <$> target)] in
  dims None [whole] ∧ dims (Some []) [whole] ∧ dims (Some (r :: rs)) (r :: rs).
Proof.
  intros whole dims.
  repeat split; unfold dims; rewrite dimEditor_eq;
    eexists _, (calls w ++ undimCalls editor (dim (self w))), _;
    (split; [reflexivity|]); (split; [reflexivity|]);
    cbn [calls]; by rewrite <- app_assoc.
Qed.

(** ** The footprint of a handle *)

(** C10. With the caches built from [config0], the handle made by
    [addHighlights] is created with a left margin of minus the
    placeholder width, the placeholder height and the placeholder width:
    the very options [addDecorations] creates its handle with.  Neither
    [highlightCount] nor the [highlight] record of the config occurs in
    them, although the resource it shows for a count in 1..10 is the bar
    built from the [highlight] record. *)
Theorem addHighlights_footprint (config0 : Config.t) (editor : TextEditor)
        (placeholders : list Placeholder.t) (highlightCount : Z) (w : World) :
  cachesBuiltFrom config0 (self w) →
  let W := PlaceholderConfig.width (Config.placeholder config0) in
  let H := PlaceholderConfig.height (Config.placeholder config0) in
  let footprint :=
    DecorationRenderOptions.mk None (Some
      {| contentIconPath := JS.Undefined;
         margin := Some ("0 0 0 " +:+ JS.numberToString (- W) +:+ "px");
         height := Some (JS.numberToString H +:+ "px");
         width := Some (JS.numberToString W +:+ "px") |}) in
  (∃ w' made bindings icon,
      addHighlights editor placeholders highlightCount w = (Normal (), w')
      ∧ calls w' = calls w ++ [CreateTextEditorDecorationType made footprint;
                               SetDecorations editor made bindings]
      ∧ Forall (λ b, darkIconOf b = icon) bindings
      ∧ if decide (1 ≤ highlightCount ≤ 10)
        then ∃ uri, buildUriForHighlight config0 highlightCount = Normal uri
                    ∧ icon = JS.Defined uri
        else icon = JS.Undefined)
  ∧ (∃ w' made bindings,
      addDecorations editor placeholders w = (Normal (), w')
      ∧ calls w' = calls w ++ [CreateTextEditorDecorationType made footprint;
                               SetDecorations editor made bindings]).
Proof.
  intros (pc & hc & Hconfig & Hpc & Hhc & Hpc0 & Hhc0) W H footprint. split.
  - rewrite (addHighlights_eq _ _ _ _ _ _ Hconfig Hhc).
    eexists _, _, _, (JS.ofOption (hc !! highlightCount)).
    split; [reflexivity|]. split; [reflexivity|].
    split; [apply Forall_fmap, Forall_forall; by intros p _|].
    destruct (decide (1 ≤ highlightCount ≤ 10)) as [Hin|Hout].
    + destruct (highlightCacheOf_builds _ _ _ Hhc0 Hin) as (uri & Huri & ->).
      by exists uri.
    + by rewrite (lookup_highlightCacheOf _ _ _ Hhc0), decide_False.
  - rewrite (addDecorations_eq _ _ _ _ _ Hconfig Hpc).
    eexists _, _, _. split; reflexivity.
Qed.

(** C8. Two [undimEditor] calls in a row leave exactly the world one
    call leaves (decorator and host alike), and afterwards no dim handle
    is tracked.  On a decorator that tracks no dim handle [undimEditor]
    changes nothing and calls nothing; so do [removeDecorations] with no
    placeholder handle tracked and [removeHighlights] with no highlight
    handle tracked.  None of them throws. *)
Theorem undimEditor_idempotent (editor editor' : TextEditor) (w : World)
        (t : PlaceHolderDecorator) (k : nat) (cs : list HostCall) :
  (undimEditor editor ;; undimEditor editor') w = undimEditor editor w
  ∧ (undimEditor editor w).1 = Normal ()
  ∧ dim (self (undimEditor editor w).2) = None
  ∧ (removeDecorations editor w).1 = Normal ()
  ∧ (removeHighlights editor w).1 = Normal ()
  ∧ (let idle := {| self := set_dim None t; nextKey := k; calls := cs |} in
     undimEditor editor idle = (Normal (), idle))
  ∧ (let idle := {| self := set_decorations [] t; nextKey := k; calls := cs |} in
     removeDecorations editor idle = (Normal (), idle))
  ∧ (let idle := {| self := set_highlights [] t; nextKey := k; calls := cs |} in
     removeHighlights editor idle = (Normal (), idle)).
Proof.
  repeat apply conj.
  - rewrite run_bind, undimEditor_eq, undimEditor_eq. cbn.
    by rewrite app_nil_r.
  - by rewrite undimEditor_eq.
  - by rewrite undimEditor_eq.
  - by rewrite removeDecorations_eq.
  - by rewrite removeHighlights_eq.
  - cbv zeta. rewrite undimEditor_eq. cbn. by rewrite app_nil_r.
  - cbv zeta. rewrite removeDecorations_eq. cbn. by rewrite app_nil_r.
  - cbv zeta. rewrite removeHighlights_eq. cbn. by rewrite app_nil_r.
Qed.

(** ** Tracking handles *)

Lemma liveDim_app cs new :
  liveDim (cs ++ new) = foldl liveDimStep (liveDim cs) new.
Proof. unfold liveDim. apply foldl_app. Qed.

Lemma filter_other (h : TextEditorDecorationType)
      (live : list TextEditorDecorationType) :
  h ∉ live → filter (λ x, x ≠ h) live = live.
Proof.
  induction live as [|x live IH]; [done|].
  rewrite not_elem_of_cons. intros [Hne Hout].
  rewrite filter_cons_True by done. by rewrite IH.
Qed.

Lemma liveDim_clearAndRelease editor (l live : list TextEditorDecorationType) :
  (∀ h, h ∈ l → h ∉ live) →
  foldl liveDimStep live (clearAndRelease editor l) = live.
Proof.
  induction l as [|h l IH]; [done|]. intros Hout.
  change (clearAndRelease editor (h :: l))
    with ([SetDecorations editor h []; Dispose h] ++ clearAndRelease editor l).
  rewrite foldl_app. cbn [foldl liveDimStep].
  rewrite filter_other by (apply Hout; left).
  apply IH. intros h' Hin. apply Hout. by right.
Qed.

Lemma count_dispose_clearAndRelease editor l h :
  NoDup l →
  countCalls (isDisposeOf h) (clearAndRelease editor l)
  = if decide (h ∈ l) then 1%nat else 0%nat.
Proof.
  unfold countCalls. induction 1 as [|x l Hx Hl IH]; [done|].
  change (clearAndRelease editor (x :: l))
    with ([SetDecorations editor x []; Dispose x] ++ clearAndRelease editor l).
  rewrite filter_app, length_app, IH.
  rewrite filter_cons_False by (cbn; congruence).
  destruct (decide (x = h)) as [->|Hne].
  - rewrite filter_cons_True by (cbn; by apply bool_decide_eq_true).
    rewrite (decide_True (P := h ∈ h :: l)) by left.
    by rewrite decide_False.
  - rewrite filter_cons_False
      by (cbn; rewrite bool_decide_eq_false_2 by done; congruence).
    cbn. destruct (decide (h ∈ l)) as [Hin|Hout].
    + by rewrite decide_True by (by right).
    + rewrite decide_False; [done|]. rewrite elem_of_cons.
      intros [?|?]; by subst.
Qed.

Lemma count_clear_clearAndRelease editor l h :
  NoDup l →
  countCalls (isClearOf editor h) (clearAndRelease editor l)
  = if decide (h ∈ l) then 1%nat else 0%nat.
Proof.
  unfold countCalls. induction 1 as [|x l Hx Hl IH]; [done|].
  change (clearAndRelease editor (x :: l))
    with ([SetDecorations editor x []; Dispose x] ++ clearAndRelease editor l).
  rewrite filter_app, length_app, IH.
  destruct (decide (x = h)) as [->|Hne].
  - rewrite filter_cons_True by (cbn; by apply bool_decide_eq_true).
    rewrite filter_cons_False by (cbn; congruence).
    rewrite (decide_True (P := h ∈ h :: l)) by left.
    by rewrite decide_False.
  - rewrite filter_cons_False
      by (cbn; rewrite bool_decide_eq_false_2 by (by intros [_ ?]); congruence).
    rewrite filter_cons_False by (cbn; congruence).
    cbn. destruct (decide (h ∈ l)) as [Hin|Hout].
    + by rewrite decide_True by (by right).
    + rewrite decide_False; [done|]. rewrite elem_of_cons.
      intros [?|?]; by subst.
Qed.

Lemma tracksWell_initial : tracksWell initialWorld.
Proof.
  split; cbn; try done; try apply NoDup_nil_2.
  intros h [Hin|[Hin|Hdim]]; [by apply elem_of_nil in Hin..|done].
Qed.

Lemma fresh_key_apart (l : list TextEditorDecorationType) (k : nat) :
  (∀ h, h ∈ l → (key h < k)%nat) → {| key := k |} ∉ l.
Proof. intros Hbelow Hin. apply Hbelow in Hin. cbn in Hin. lia. Qed.

(** A handle made and left aside: nothing tracked changes. *)
Lemma tracksWell_aside w o :
  tracksWell w → isDimStyle o = false →
  tracksWell {| self := self w; nextKey := S (nextKey w);
                calls := calls w ++
                  [CreateTextEditorDecorationType {| key := nextKey w |} o] |}.
Proof.
  intros [Hd Hh Hdim Hkeys Hlive] Ho. split; cbn; try done.
  - intros h Hh'. specialize (Hkeys h Hh'). lia.
  - rewrite liveDim_app. cbn. by rewrite Ho.
Qed.

Lemma tracksWell_call c w : tracksWell w → tracksWell (call c w).2.
Proof.
  intros Hw. pose proof Hw as [Hd Hh Hdim Hkeys Hlive].
  assert (∀ h, h ∈ decorations (self w) → (key h < nextKey w)%nat) as Hkd
    by (intros h Hin; apply Hkeys; by left).
  assert (∀ h, h ∈ highlights (self w) → (key h < nextKey w)%nat) as Hkh
    by (intros h Hin; apply Hkeys; right; by left).
  destruct c as [config1|e ps|e ps n|e rs|e|e|e]; cbn [call] in *.
  - (* refreshConfig *)
    destruct (placeholderCacheOf config1) as [pc|err] eqn:Hpc0.
    + destruct (highlightCacheOf config1) as [hc|err] eqn:Hhc0.
      * rewrite (refreshConfig_eq _ _ _ _ Hpc0 Hhc0). by split.
      * rewrite (refreshConfig_throws_highlight _ _ _ _ Hpc0 Hhc0). by split.
    + rewrite (refreshConfig_throws_placeholder _ _ _ Hpc0). by split.
  - (* addDecorations *)
    destruct (addDecorations_cases e ps w)
      as [->|[(o & Ho & _ & ->)|(o & bs & Ho & ->)]];
      [done|by apply tracksWell_aside|].
    split; cbn; try done.
    + apply NoDup_app. split; [done|]. split; [|apply NoDup_singleton].
      intros h Hin ->%list_elem_of_singleton. by apply (fresh_key_apart _ _ Hkd).
    + intros h Hh'. destruct (Hdim h Hh') as [Hout1 Hout2]. split; [|done].
      rewrite elem_of_app, list_elem_of_singleton. intros [Hin| ->]; [done|].
      specialize (Hkeys _ (or_intror (or_intror Hh'))). cbn in Hkeys. lia.
    + intros h. rewrite elem_of_app, list_elem_of_singleton.
      intros [[Hin| ->]|Hrest]; [|cbn; lia|].
      * apply Hkd in Hin. lia.
      * specialize (Hkeys h (or_intror Hrest)). lia.
    + rewrite liveDim_app. cbn. by rewrite Ho.
  - (* addHighlights *)
    destruct (addHighlights_cases e ps n w)
      as [->|[(o & Ho & _ & ->)|(o & bs & Ho & ->)]];
      [done|by apply tracksWell_aside|].
    split; cbn; try done.
    + apply NoDup_app. split; [done|]. split; [|apply NoDup_singleton].
      intros h Hin ->%list_elem_of_singleton. by apply (fresh_key_apart _ _ Hkh).
    + intros h Hh'. destruct (Hdim h Hh') as [Hout1 Hout2]. split; [done|].
      rewrite elem_of_app, list_elem_of_singleton. intros [Hin| ->]; [done|].
      specialize (Hkeys _ (or_intror (or_intror Hh'))). cbn in Hkeys. lia.
    + intros h. rewrite elem_of_app, list_elem_of_singleton.
      intros [Hin|[[Hin| ->]|Hrest]]; [| |cbn; lia|].
      * apply Hkd in Hin. lia.
      * apply Hkh in Hin. lia.
      * specialize (Hkeys h (or_intror (or_intror Hrest))). lia.
    + rewrite liveDim_app. cbn. by rewrite Ho.
  - (* dimEditor *)
    rewrite dimEditor_eq in *. split; cbn; try done.
    + intros h [= <-]. split; by apply fresh_key_apart.
    + intros h [Hin|[Hin|[= <-]]]; [| |cbn; lia].
      * apply Hkd in Hin. lia.
      * apply Hkh in Hin. lia.
    + rewrite !liveDim_app, Hlive. destruct (dim (self w)) as [d|]; cbn; [|done].
      by rewrite decide_False by (by intros ?).
  - (* removeDecorations *)
    rewrite removeDecorations_eq in *. split; cbn; try done.
    + apply NoDup_nil_2.
    + intros h Hh'. destruct (Hdim h Hh'). split; [apply not_elem_of_nil|done].
    + intros h [Hin|Hrest]; [by apply elem_of_nil in Hin|].
      apply Hkeys. by right.
    + rewrite liveDim_app, Hlive. apply liveDim_clearAndRelease.
      intros h Hin. destruct (dim (self w)) as [d|]; [|apply not_elem_of_nil].
      cbn. rewrite list_elem_of_singleton. intros ->.
      by destruct (Hdim d eq_refl).
  - (* removeHighlights *)
    rewrite removeHighlights_eq in *. split; cbn; try done.
    + apply NoDup_nil_2.
    + intros h Hh'. destruct (Hdim h Hh'). split; [done|apply not_elem_of_nil].
    + intros h [Hin|[Hin|Hrest]]; [|by apply elem_of_nil in Hin|].
      * by apply Hkd.
      * apply Hkeys. right. by right.
    + rewrite liveDim_app, Hlive. apply liveDim_clearAndRelease.
      intros h Hin. destruct (dim (self w)) as [d|]; [|apply not_elem_of_nil].
      cbn. rewrite list_elem_of_singleton. intros ->.
      by destruct (Hdim d eq_refl).
  - (* undimEditor *)
    rewrite undimEditor_eq in *. split; cbn; try done.
    + intros h [Hin|[Hin|Hrest]]; [by apply Hkd|by apply Hkh|done].
    + rewrite liveDim_app, Hlive. destruct (dim (self w)) as [d|]; cbn; [|done].
      by rewrite decide_False by (by intros ?).
Qed.

Lemma tracksWell_runCalls cs w : tracksWell w → tracksWell (runCalls cs w).
Proof.
  intros Hw. induction cs as [|c cs IH] using rev_ind; [done|].
  rewrite runCalls_snoc. by apply tracksWell_call.
Qed.

(** A refresh leaves the handles alone, however it ends. *)
Lemma refreshConfig_handles config0 w :
  decorations (self (refreshConfig config0 w).2) = decorations (self w)
  ∧ highlights (self (refreshConfig config0 w).2) = highlights (self w)
  ∧ dim (self (refreshConfig config0 w).2) = dim (self w)
  ∧ nextKey (refreshConfig config0 w).2 = nextKey w
  ∧ calls (refreshConfig config0 w).2 = calls w.
Proof.
  destruct (placeholderCacheOf config0) as [pc|err] eqn:Hpc0.
  - destruct (highlightCacheOf config0) as [hc|err] eqn:Hhc0.
    + by rewrite (refreshConfig_eq _ _ _ _ Hpc0 Hhc0).
    + by rewrite (refreshConfig_throws_highlight _ _ _ _ Hpc0 Hhc0).
  - by rewrite (refreshConfig_throws_placeholder _ _ _ Hpc0).
Qed.

Lemma call_decorations c w :
  ready (self w) →
  decorations (self (call c w).2)
  = match c with
    | AddDecorations _ _ => decorations (self w) ++ [{| key := nextKey w |}]
    | RemoveDecorations _ => []
    | _ => decorations (self w)
    end.
Proof.
  intros ([config0 Hconfig] & [pc Hpc] & [hc Hhc]).
  destruct c as [config1|e ps|e ps n|e rs|e|e|e]; cbn [call].
  - apply refreshConfig_handles.
  - by rewrite (addDecorations_eq _ _ _ _ _ Hconfig Hpc).
  - by rewrite (addHighlights_eq _ _ _ _ _ _ Hconfig Hhc).
  - by rewrite dimEditor_eq.
  - by rewrite removeDecorations_eq.
  - by rewrite removeHighlights_eq.
  - by rewrite undimEditor_eq.
Qed.

Lemma call_highlights c w :
  ready (self w) →
  highlights (self (call c w).2)
  = match c with
    | AddHighlights _ _ _ => highlights (self w) ++ [{| key := nextKey w |}]
    | RemoveHighlights _ => []
    | _ => highlights (self w)
    end.
Proof.
  intros ([config0 Hconfig] & [pc Hpc] & [hc Hhc]).
  destruct c as [config1|e ps|e ps n|e rs|e|e|e]; cbn [call].
  - apply refreshConfig_handles.
  - by rewrite (addDecorations_eq _ _ _ _ _ Hconfig Hpc).
  - by rewrite (addHighlights_eq _ _ _ _ _ _ Hconfig Hhc).
  - by rewrite dimEditor_eq.
  - by rewrite removeDecorations_eq.
  - by rewrite removeHighlights_eq.
  - by rewrite undimEditor_eq.
Qed.

Lemma howMany_snoc p cs c :
  howMany p (cs ++ [c]) = (howMany p cs + if p c then 1 else 0)%nat.
Proof.
  unfold howMany. rewrite filter_app, length_app. f_equal.
  destruct (p c) eqn:Hp.
  - by rewrite filter_cons_True.
  - by rewrite filter_cons_False by (by rewrite Hp).
Qed.

Lemma decorations_counted cs w :
  ready (self w) →
  Forall (λ c, isRemoveDecorations c = false) cs →
  length (decorations (self (runCalls cs w)))
  = (length (decorations (self w)) + howMany isAddDecorations cs)%nat.
Proof.
  intros Hw. induction cs as [|c cs IH] using rev_ind; intros Hcs.
  - cbn. lia.
  - apply Forall_app in Hcs as [Hcs Hc]. apply Forall_inv in Hc.
    rewrite runCalls_snoc, howMany_snoc, call_decorations
      by (by apply runCalls_ready).
    specialize (IH Hcs).
    destruct c; cbn in Hc |- *; try done; rewrite ?length_app; cbn; lia.
Qed.

Lemma highlights_counted cs w :
  ready (self w) →
  Forall (λ c, isRemoveHighlights c = false) cs →
  length (highlights (self (runCalls cs w)))
  = (length (highlights (self w)) + howMany isAddHighlights cs)%nat.
Proof.
  intros Hw. induction cs as [|c cs IH] using rev_ind; intros Hcs.
  - cbn. lia.
  - apply Forall_app in Hcs as [Hcs Hc]. apply Forall_inv in Hc.
    rewrite runCalls_snoc, howMany_snoc, call_highlights
      by (by apply runCalls_ready).
    specialize (IH Hcs).
    destruct c; cbn in Hc |- *; try done; rewrite ?length_app; cbn; lia.
Qed.

(** C7 (amended).  Take any world [w0] a client has reached from a new
    decorator.
    - If [w0] holds a config and both caches (some [refreshConfig] has
      completed normally), then after further calls [cs] none of which
      is [removeDecorations] the placeholder handles tracked are those
      of [w0] plus one for each [addDecorations] among [cs].
    - One [removeDecorations] then completes normally, leaves none
      tracked, leaves the highlight list alone, and tells the host, for
      each handle that was tracked, exactly one clearing
      [setDecorations] and exactly one [dispose], and none for any
      other handle.
    - The same holds of [addHighlights] and [removeHighlights] on the
      highlight list.
    - The dim handles made and not yet disposed of are exactly the
      tracked one, so at most one; [dimEditor] clears and disposes of
      the tracked handle, if any, before it makes the new one, which is
      then the only one. *)
Theorem handle_tracking (before cs cs' : list Call) (editor : TextEditor)
        (ranges : option (list Range.t)) :
  let w0 := runCalls before initialWorld in
  let w1 := runCalls cs w0 in
  let w2 := runCalls cs' w0 in
  let once (l : list TextEditorDecorationType) (told : list HostCall) :=
    ∀ h, countCalls (isDisposeOf h) told = (if decide (h ∈ l) then 1 else 0)%nat
         ∧ countCalls (isClearOf editor h) told
           = (if decide (h ∈ l) then 1 else 0)%nat in
  (ready (self w0) →
   Forall (λ c, isRemoveDecorations c = false) cs →
   length (decorations (self w1))
   = length (decorations (self w0)) + howMany isAddDecorations cs)%nat
  ∧ (∃ w' told,
       removeDecorations editor w1 = (Normal (), w')
       ∧ decorations (self w') = []
       ∧ highlights (self w') = highlights (self w1)
       ∧ calls w' = calls w1 ++ told
       ∧ once (decorations (self w1)) told)
  ∧ (ready (self w0) →
     Forall (λ c, isRemoveHighlights c = false) cs' →
     length (highlights (self w2))
     = length (highlights (self w0)) + howMany isAddHighlights cs')%nat
  ∧ (∃ w' told,
       removeHighlights editor w2 = (Normal (), w')
       ∧ highlights (self w') = []
       ∧ decorations (self w') = decorations (self w2)
       ∧ calls w' = calls w2 ++ told
       ∧ once (highlights (self w2)) told)
  ∧ liveDim (calls w0) = option_list (dim (self w0))
  ∧ (length (liveDim (calls w0)) ≤ 1)%nat
  ∧ (∃ w' made bindings,
       dimEditor editor ranges w0 = (Normal (), w')
       ∧ dim (self w') = Some made
       ∧ calls w' = calls w0
                    ++ match dim (self w0) with
                       | Some old => [SetDecorations editor old []; Dispose old]
                       | None => []
                       end
                    ++ [CreateTextEditorDecorationType made dimStyle;
                        SetDecorations editor made bindings]
       ∧ liveDim (calls w') = [made]).
Proof.
  intros w0 w1 w2 once.
  assert (tracksWell w0) as Hw0
    by apply tracksWell_runCalls, tracksWell_initial.
  assert (tracksWell w1) as Hw1 by by apply tracksWell_runCalls.
  assert (tracksWell w2) as Hw2 by by apply tracksWell_runCalls.
  repeat apply conj.
  - intros Hready Hcs. by apply decorations_counted.
  - rewrite removeDecorations_eq. eexists _, _.
    repeat apply conj; try reflexivity.
    intros h. split.
    + apply count_dispose_clearAndRelease, Hw1.
    + apply count_clear_clearAndRelease, Hw1.
  - intros Hready Hcs'. by apply highlights_counted.
  - rewrite removeHighlights_eq. eexists _, _.
    repeat apply conj; try reflexivity.
    intros h. split.
    + apply count_dispose_clearAndRelease, Hw2.
    + apply count_clear_clearAndRelease, Hw2.
  - apply Hw0.
  - rewrite (liveDim_tracked _ Hw0). destruct (dim (self w0)); cbn; lia.
  - pose proof (tracksWell_call (DimEditor editor ranges) w0 Hw0) as Hdim.
    apply liveDim_tracked in Hdim. cbn [call] in Hdim.
    rewrite dimEditor_eq in *. eexists _, _, _.
    repeat apply conj; try reflexivity. exact Hdim.
Qed.

(** ** How the calls compose *)

(** X6. A remove undoes every add before it, the latest included.
    With the caches built, [addDecorations] followed by
    [removeDecorations] leaves the decorator as [removeDecorations]
    alone does, and the host has seen the new handle made, bound,
    cleared and disposed of after the handles tracked before it, in the
    order they were added; likewise for [addHighlights] with
    [removeHighlights] and for [dimEditor] with [undimEditor].  A second
    remove in a row changes nothing more. *)
Theorem remove_absorbs_add (config0 : Config.t) (editor editor' : TextEditor)
        (placeholders : list Placeholder.t) (highlightCount : Z)
        (ranges : option (list Range.t)) (w : World) :
  cachesBuiltFrom config0 (self w) →
  let made := {| key := nextKey w |} in
  self ((addDecorations editor placeholders ;; removeDecorations editor') w).2
  = self (removeDecorations editor' w).2
  ∧ (∃ footprint bindings,
       calls ((addDecorations editor placeholders ;; removeDecorations editor') w).2
       = calls w
         ++ [CreateTextEditorDecorationType made footprint;
             SetDecorations editor made bindings]
         ++ clearAndRelease editor' (decorations (self w))
         ++ [SetDecorations editor' made []; Dispose made])
  ∧ self ((addHighlights editor placeholders highlightCount
           ;; removeHighlights editor') w).2
    = self (removeHighlights editor' w).2
  ∧ self ((dimEditor editor ranges ;; undimEditor editor') w).2
    = self (undimEditor editor' w).2
  ∧ (removeDecorations editor ;; removeDecorations editor') w
    = removeDecorations editor w
  ∧ (removeHighlights editor ;; removeHighlights editor') w
    = removeHighlights editor w.
Proof.
  intros (pc & hc & Hconfig & Hpc & Hhc & _) made. repeat apply conj.
  - rewrite run_bind, (addDecorations_eq _ _ _ _ _ Hconfig Hpc).
    by rewrite !removeDecorations_eq.
  - rewrite run_bind, (addDecorations_eq _ _ _ _ _ Hconfig Hpc).
    rewrite removeDecorations_eq. eexists _, _.
    cbn [snd calls self set_decorations decorations].
    unfold clearAndRelease. rewrite bind_app. cbn [mbind list_bind app].
    by rewrite <- !app_assoc.
  - rewrite run_bind, (addHighlights_eq _ _ _ _ _ _ Hconfig Hhc).
    by rewrite !removeHighlights_eq.
  - rewrite run_bind, dimEditor_eq. by rewrite !undimEditor_eq.
  - rewrite run_bind, !removeDecorations_eq. cbn. by rewrite app_nil_r.
  - rewrite run_bind, !removeHighlights_eq. cbn. by rewrite app_nil_r.
Qed.

(** X8. [addHighlights] reads of its targets only where they sit: with
    the caches built, two batches whose targets have the same lines and
    columns in the same order, whatever their codes, get the same
    completion, the same handle and the same bindings. *)
Theorem addHighlights_by_position (config0 : Config.t) (editor : TextEditor)
        (batch1 batch2 : list Placeholder.t) (highlightCount : Z) (w : World) :
  cachesBuiltFrom config0 (self w) →
  positionOf <$> batch1 = positionOf <$> batch2 →
  addHighlights editor batch1 highlightCount w
  = addHighlights editor batch2 highlightCount w.
Proof.
  intros (pc & hc & Hconfig & Hpc & Hhc & _) Hpos.
  rewrite !(addHighlights_eq _ _ _ _ _ _ Hconfig Hhc).
  pose (bind := λ lc : N * N,
          pointBinding lc.1 (lc.2 + 2) (JS.ofOption (hc !! highlightCount))).
  assert (∀ batch : list Placeholder.t,
            (λ p, pointBinding (Placeholder.line p) (Placeholder.character p + 2)
                    (JS.ofOption (hc !! highlightCount))) <$> batch
            = bind <$> (positionOf <$> batch)) as Hbatch
    by (intros batch; by rewrite <- list_fmap_compose).
  by rewrite !Hbatch, Hpos.
Qed.

(** ** How a [refreshConfig] ends *)

(** How a [refreshConfig] ends, whatever its config. *)
Lemma refreshConfig_run (config0 : Config.t) (w : World) :
  refreshConfig config0 w
  = match placeholderCacheOf config0, highlightCacheOf config0 with
    | Throw e, _ =>
        (Throw e,
         {| self := set_config (Some config0) (self w);
            nextKey := nextKey w; calls := calls w |})
    | Normal pc, Throw e =>
        (Throw e,
         {| self := set_placeholderCache (Some pc)
                      (set_config (Some config0) (self w));
            nextKey := nextKey w; calls := calls w |})
    | Normal pc, Normal hc =>
        (Normal (),
         {| self := set_highlightCache (Some hc)
                      (set_placeholderCache (Some pc)
                         (set_config (Some config0) (self w)));
            nextKey := nextKey w; calls := calls w |})
    end.
Proof.
  destruct (placeholderCacheOf config0) as [pc|err] eqn:Hpc0.
  - destruct (highlightCacheOf config0) as [hc|err] eqn:Hhc0.
    + by rewrite (refreshConfig_eq _ _ _ _ Hpc0 Hhc0).
    + by rewrite (refreshConfig_throws_highlight _ _ _ _ Hpc0 Hhc0).
  - by rewrite (refreshConfig_throws_placeholder _ _ _ Hpc0).
Qed.












(** X4. Of two [refreshConfig] calls in a row only the second counts
    when its config can be built: the world is the one the second call
    alone leaves, however the first ended.  A [refreshConfig] tells the
    host nothing and leaves every tracked handle tracked, so what was
    bound before it keeps the resource it was bound to. *)
Theorem refreshConfig_last_wins (config1 config2 : Config.t) (w : World) :
  builds config2 →
  runCalls [RefreshConfig config1; RefreshConfig config2] w
  = runCalls [RefreshConfig config2] w
  ∧ calls (refreshConfig config1 w).2 = calls w
  ∧ nextKey (refreshConfig config1 w).2 = nextKey w
  ∧ decorations (self (refreshConfig config1 w).2) = decorations (self w)
  ∧ highlights (self (refreshConfig config1 w).2) = highlights (self w)
  ∧ dim (self (refreshConfig config1 w).2) = dim (self w).
Proof.
  intros (pc & hc & Hpc & Hhc).
  destruct (refreshConfig_handles config1 w) as (Hd & Hh & Hdim & Hk & Hc).
  split; [|by repeat apply conj].
  cbn [runCalls foldl call]. rewrite !(refreshConfig_eq _ _ _ _ Hpc Hhc).
  cbn [snd]. by rewrite Hd, Hh, Hdim, Hk, Hc.
Qed.

(** X5. [refreshConfig] commutes with every call that reads neither the
    config nor a cache ([dimEditor], [undimEditor], [removeDecorations],
    [removeHighlights]): made in either order the two calls leave the
    same world, and each ends the way it ends when made first. *)
Theorem refreshConfig_commutes (config0 : Config.t) (c : Call) (w : World) :
  isHandleOnly c = true →
  runCalls [RefreshConfig config0; c] w = runCalls [c; RefreshConfig config0] w
  ∧ (call c (refreshConfig config0 w).2).1 = (call c w).1
  ∧ (refreshConfig config0 (call c w).2).1 = (refreshConfig config0 w).1.
Proof.
  intros Hc. cbn [runCalls foldl]. cbn [call].
  rewrite !refreshConfig_run.
  destruct c as [config1|e ps|e ps n|e rs|e|e|e]; try discriminate Hc;
    cbn [call];
    destruct (placeholderCacheOf config0) as [pc|err];
    try destruct (highlightCacheOf config0) as [hc|err'];
    rewrite ?dimEditor_eq, ?removeDecorations_eq, ?removeHighlights_eq,
      ?undimEditor_eq; done.
Qed.

(** ** The decorator seen as four counters *)

Lemma whole_call c w :
  whole (self w) → validCall c → whole (self (call c w).2).
Proof.
  intros Hw Hc.
  assert (∀ c', match c' with RefreshConfig _ => False | _ => True end →
                whole (self (call c' w).2)) as Hkeeps.
  { intros c' Hc'. destruct (call_keeps_config c' w Hc') as (H1 & H2 & H3).
    unfold whole, ready. by rewrite H1, H2, H3. }
  destruct c as [config0|e ps|e ps n|e rs|e|e|e]; try (by apply Hkeeps).
  right. cbn [call validCall] in *. destruct Hc as (pc & hc & Hpc & Hhc).
  rewrite (refreshConfig_eq _ _ _ _ Hpc Hhc). by repeat split.
Qed.

Lemma whole_runCalls cs :
  Forall validCall cs → whole (self (runCalls cs initialWorld)).
Proof.
  induction cs as [|c cs IH] using rev_ind; intros Hcs.
  - by left.
  - apply Forall_app in Hcs as [Hcs Hc]. apply Forall_inv in Hc.
    rewrite runCalls_snoc. apply whole_call; [by apply IH|done].
Qed.

Lemma call_counters c w :
  whole (self w) →
  countersOf (self (call c w).2) = countersStep (countersOf (self w)) c.
Proof.
  intros Hw. unfold countersOf.
  destruct c as [config1|e ps|e ps n|e rs|e|e|e]; cbn [call countersStep
    hasConfig nDecorations nHighlights hasDim].
  - rewrite refreshConfig_run.
    destruct (placeholderCacheOf config1) as [pc|err];
      [destruct (highlightCacheOf config1) as [hc|err']|]; done.
  - destruct Hw as [(Hnone & _)|([config0 Hconfig] & [pc Hpc] & _)].
    + rewrite addDecorations_unconfigured by done. cbn [snd]. by rewrite Hnone.
    + rewrite (addDecorations_eq _ _ _ _ _ Hconfig Hpc). cbn. rewrite Hconfig.
      cbn. f_equal. rewrite length_app. cbn. lia.
  - destruct Hw as [(Hnone & _)|([config0 Hconfig] & _ & [hc Hhc])].
    + rewrite addHighlights_unconfigured by done. cbn [snd]. by rewrite Hnone.
    + rewrite (addHighlights_eq _ _ _ _ _ _ Hconfig Hhc). cbn. rewrite Hconfig.
      cbn. f_equal. rewrite length_app. cbn. lia.
  - by rewrite dimEditor_eq.
  - by rewrite removeDecorations_eq.
  - by rewrite removeHighlights_eq.
  - by rewrite undimEditor_eq.
Qed.

(** X7. For every sequence of calls on a new decorator whose
    [refreshConfig] calls are given configs that can be built, whether
    a config is stored, how many placeholder and highlight handles are
    tracked and whether a dim handle is tracked are what a four-counter
    machine computes from the calls alone: [refreshConfig] sets the
    first, an add counts one more once a config is stored and nothing
    before, a remove resets its own counter only, [dimEditor] sets and
    [undimEditor] clears the last. *)
Theorem counters_follow_calls (cs : list Call) :
  Forall validCall cs →
  countersOf (self (runCalls cs initialWorld))
  = foldl countersStep (countersOf newPlaceHolderDecorator) cs.
Proof.
  induction cs as [|c cs IH] using rev_ind; intros Hcs; [done|].
  apply Forall_app in Hcs as [Hcs Hc].
  rewrite runCalls_snoc, foldl_snoc, <- IH by done.
  by apply call_counters, whole_runCalls.
Qed.

(** ** What the caches depend on *)

Lemma buildUriForPlaceholder_ext config1 config2 code :
  Config.placeholder config1 = Config.placeholder config2 →
  buildUriForPlaceholder config1 code = buildUriForPlaceholder config2 code.
Proof. intros Heq. unfold buildUriForPlaceholder. by rewrite Heq. Qed.

Lemma highlightCacheOf_ext config1 config2 :
  Config.highlight config1 = Config.highlight config2 →
  highlightCacheOf config1 = highlightCacheOf config2.
Proof.
  intros Heq. unfold highlightCacheOf, buildUriForHighlight. by rewrite Heq.
Qed.

Lemma size_list_to_set_le (l : list string) :
  (size (list_to_set (C := gset string) l) ≤ length l)%nat.
Proof.
  induction l as [|x l IH]; [done|]. cbn [list_to_set length].
  rewrite size_union_alt, size_singleton.
  assert (size (list_to_set (C := gset string) l ∖ {[x]})
          ≤ size (list_to_set (C := gset string) l))%nat as Hle
    by (apply subseteq_size; set_solver).
  lia.
Qed.

Lemma reduce_set_total {V} (g : string → Completion V) acc l :
  (∀ k, k ∈ l → is_Some (valueOf (g k))) →
  ∃ r, reduce (λ acc code, uri ← g code; Normal (JS.set acc code uri)) acc l
       = Normal r.
Proof.
  revert acc. induction l as [|x l IH]; intros acc Hg; [by eexists|].
  cbn [reduce]. destruct (Hg x) as [u Hu]; [by left|].
  apply valueOf_Some in Hu. rewrite Hu. cbn.
  apply IH. intros k Hk. apply Hg. by right.
Qed.

(** X3. The caches [refreshConfig] builds depend on [characters] only
    as a set.  Take two configs with the same [placeholder] and
    [highlight] records whose [characters] lists have the same
    elements, in any order and with any repetitions.  If the glyphs and
    bars of the first can be built, [refreshConfig] completes normally
    for the second too and the two leave equal caches, whatever the
    worlds they are stored in.  The own properties of the placeholder
    cache are named by the elements of [characters] other than
    [__proto__], so they are at most as many as the list is long; the
    highlight cache has ten. *)
Theorem caches_ignore_order (config1 config2 : Config.t) (w1 w2 : World) :
  Config.placeholder config1 = Config.placeholder config2 →
  Config.highlight config1 = Config.highlight config2 →
  (∀ code, code ∈ Config.characters config1 ↔ code ∈ Config.characters config2) →
  builds config1 →
  let t1 := self (refreshConfig config1 w1).2 in
  let t2 := self (refreshConfig config2 w2).2 in
  (refreshConfig config2 w2).1 = Normal ()
  ∧ placeholderCache t1 = placeholderCache t2
  ∧ highlightCache t1 = highlightCache t2
  ∧ ∃ (pc : JS.Object Uri.t) (hc : gmap Z Uri.t),
      placeholderCache t1 = Some pc
      ∧ highlightCache t1 = Some hc
      ∧ dom (JS.own pc)
        = list_to_set (Config.characters config1) ∖ {["__proto__"]}
      ∧ (size (JS.own pc) ≤ length (Config.characters config1))%nat
      ∧ size hc = 10%nat.
Proof.
  intros Hp Hh Hchars (pc & hc & Hpc & Hhc) t1 t2.
  assert (∃ pc2, placeholderCacheOf config2 = Normal pc2) as [pc2 Hpc2].
  { apply reduce_set_total. intros code Hin.
    rewrite <- (buildUriForPlaceholder_ext _ _ _ Hp).
    apply (reduce_set_Normal _ _ _ _ _ Hpc). by apply Hchars. }
  assert (highlightCacheOf config2 = Normal hc) as Hhc2
    by (by rewrite <- (highlightCacheOf_ext _ _ Hh)).
  assert (pc = pc2) as <-.
  { destruct pc as [own1 proto1], pc2 as [own2 proto2]. f_equal.
    - apply map_eq. intros code.
      pose proof (reduce_set_own _ _ _ _ code Hpc) as H1.
      pose proof (reduce_set_own _ _ _ _ code Hpc2) as H2.
      cbn [JS.own] in H1, H2. rewrite H1, H2.
      destruct (decide (code ∈ Config.characters config1 ∧ code ≠ "__proto__"))
        as [[Hin Hne]|Hout].
      + rewrite decide_True by (split; [by apply Hchars|done]).
        by rewrite (buildUriForPlaceholder_ext _ _ _ Hp).
      + rewrite decide_False; [done|]. rewrite <- Hchars. exact Hout.
    - pose proof (reduce_set_proto _ _ _ _ Hpc) as H1.
      pose proof (reduce_set_proto _ _ _ _ Hpc2) as H2.
      cbn [JS.proto] in H1, H2. rewrite H1, H2.
      destruct (decide ("__proto__" ∈ Config.characters config1)) as [Hin|Hout].
      + rewrite decide_True by (by apply Hchars).
        by rewrite (buildUriForPlaceholder_ext _ _ _ Hp).
      + by rewrite decide_False by (by rewrite <- Hchars). }
  unfold t1, t2.
  rewrite (refreshConfig_eq _ _ _ _ Hpc Hhc), (refreshConfig_eq _ _ _ _ Hpc2 Hhc2).
  cbn [fst snd self placeholderCache highlightCache].
  split; [done|]. split; [done|]. split; [done|].
  exists pc, hc. split; [done|]. split; [done|].
  assert (dom (JS.own pc)
          = list_to_set (C := gset string) (Config.characters config1)
              ∖ {["__proto__"]}) as Hdom.
  { apply set_eq. intros code.
    rewrite elem_of_dom, (reduce_set_own _ _ _ _ code Hpc),
      elem_of_difference, elem_of_list_to_set, elem_of_singleton.
    destruct (decide (code ∈ Config.characters config1 ∧ code ≠ "__proto__"))
      as [[Hin Hne]|Hout].
    - split; [done|]. intros _. by apply (reduce_set_Normal _ _ _ _ _ Hpc).
    - unfold JS.emptyObject. cbn [JS.own]. rewrite lookup_empty.
      split; [by intros [? ?]|done]. }
  split; [done|]. split.
  - rewrite <- size_dom, Hdom.
    pose proof (size_list_to_set_le (Config.characters config1)) as Hle.
    assert (size (list_to_set (C := gset string) (Config.characters config1)
                    ∖ {["__proto__"]})
            ≤ size (list_to_set (C := gset string) (Config.characters config1)))%nat
      as Hsub by (apply subseteq_size; set_solver).
    lia.
  - rewrite <- (size_dom (D := gset Z)).
    assert (dom hc = list_to_set (C := gset Z) highlightWidths) as ->.
    { apply set_eq. intros width.
      rewrite elem_of_dom, (lookup_highlightCacheOf _ _ _ Hhc),
        elem_of_list_to_set, elem_of_highlightWidths.
      destruct (decide (1 ≤ width ≤ 10)) as [Hin|Hout].
      - split; [done|]. intros _.
        destruct (highlightCacheOf_builds _ _ _ Hhc Hin) as (uri & -> & _).
        by eexists.
      - split; [by intros [? ?]|done]. }
    by vm_compute.
Qed.

(** ** The host's contract *)

Lemma hostRun_app cs cs' s :
  hostRun (cs ++ cs') s
  = match hostRun cs s with
    | Some s' => hostRun cs' s'
    | None => None
    end.
Proof.
  revert s. induction cs as [|c cs IH]; intros s; [done|].
  cbn [app hostRun]. destruct (hostStep s c); [apply IH|done].
Qed.

Lemma hostRun_clearAndRelease editor (l : list TextEditorDecorationType) s :
  NoDup l →
  (∀ h, h ∈ l → h ∈ alive s) →
  hostRun (clearAndRelease editor l) s
  = Some {| everMade := everMade s; alive := alive s ∖ list_to_set l |}.
Proof.
  intros Hl. revert s. induction Hl as [|h l Hh Hl IH]; intros s Hin.
  - cbn. destruct s as [m a]. cbn. f_equal. f_equal. set_solver.
  - change (clearAndRelease editor (h :: l))
      with ([SetDecorations editor h []; Dispose h] ++ clearAndRelease editor l).
    rewrite hostRun_app. cbn [hostRun hostStep].
    rewrite decide_True by (apply Hin; left).
    rewrite decide_True by (apply Hin; left).
    rewrite IH.
    + cbn [everMade alive]. f_equal. f_equal. set_solver.
    + intros h' Hh'. cbn [alive]. apply elem_of_difference. split.
      * apply Hin. by right.
      * rewrite elem_of_singleton. by intros ->.
Qed.

Lemma hostAgrees_initial : hostAgrees initialWorld hostStart.
Proof.
  split; cbn; try done.
  intros h Hin. by apply elem_of_nil in Hin.
Qed.

(** The host after a handle is made. *)
Lemma hostRun_create s made o rest :
  made ∉ everMade s →
  hostRun (CreateTextEditorDecorationType made o :: rest) s
  = hostRun rest {| everMade := {[made]} ∪ everMade s;
                    alive := {[made]} ∪ alive s |}.
Proof. intros Hfresh. cbn [hostRun hostStep]. by rewrite decide_False. Qed.

Lemma hostRun_bind s editor h bindings rest :
  h ∈ alive s →
  hostRun (SetDecorations editor h bindings :: rest) s = hostRun rest s.
Proof. intros Hin. cbn [hostRun hostStep]. by rewrite decide_True. Qed.

Lemma hostRun_dispose s h rest :
  h ∈ alive s →
  hostRun (Dispose h :: rest) s
  = hostRun rest {| everMade := everMade s; alive := alive s ∖ {[h]} |}.
Proof. intros Hin. cbn [hostRun hostStep]. by rewrite decide_True. Qed.

Lemma hostAgrees_call c w s :
  tracksWell w → hostAgrees w s →
  ∃ s', hostAgrees (call c w).2 s'
        ∧ (whole (self w) → alive s = trackedSet (self w) →
           alive s' = trackedSet (self (call c w).2)).
Proof.
  intros [Hd Hh Hdim Hkeys _] [Hrun Htracked Hsub Hmade Hapart].
  assert (∀ h, h ∈ decorations (self w) → (key h < nextKey w)%nat) as Hkd
    by (intros h Hin; apply Hkeys; by left).
  assert (∀ h, h ∈ highlights (self w) → (key h < nextKey w)%nat) as Hkh
    by (intros h Hin; apply Hkeys; right; by left).
  assert ({| key := nextKey w |} ∉ everMade s) as Hfresh.
  { intros Hin. apply Hmade in Hin. cbn in Hin. lia. }
  assert ({| key := nextKey w |} ∉ decorations (self w)) as Hfd
    by (by apply fresh_key_apart).
  assert ({| key := nextKey w |} ∉ highlights (self w)) as Hfh
    by (by apply fresh_key_apart).
  assert (∀ h, h ∈ decorations (self w) → h ∈ alive s) as Had
    by (intros h Hin; apply Htracked; unfold trackedSet; set_solver).
  assert (∀ h, h ∈ highlights (self w) → h ∈ alive s) as Hah
    by (intros h Hin; apply Htracked; unfold trackedSet; set_solver).
  assert (∀ h, dim (self w) = Some h → h ∈ alive s) as Hdl.
  { intros h Hh'. apply Htracked. unfold trackedSet. rewrite Hh'. set_solver. }
  assert (∀ h, h ∈ ({[ {| key := nextKey w |} ]} ∪ everMade s
                     : gset TextEditorDecorationType) →
               (key h < S (nextKey w))%nat) as Hbelow.
  { intros h [->%elem_of_singleton|Hin]%elem_of_union; [cbn; lia|].
    apply Hmade in Hin. lia. }
  unfold trackedSet in Htracked.
  destruct c as [config1|e ps|e ps n|e rs|e|e|e]; cbn [call].
  - (* refreshConfig *)
    exists s. rewrite refreshConfig_run.
    destruct (placeholderCacheOf config1) as [pc|err];
      [destruct (highlightCacheOf config1) as [hc|err']|]; by split.
  - (* addDecorations *)
    destruct (addDecorations_cases e ps w)
      as [->|[(o & _ & Hpart & ->)|(o & bs & _ & ->)]].
    + by exists s.
    + eexists. split; [split|intros Hwhole; by destruct Hpart];
        cbn [snd self nextKey calls decorations highlights dim].
      * rewrite hostRun_app, Hrun; cbv beta iota. by rewrite hostRun_create.
      * unfold trackedSet, set_decorations, set_highlights, set_dim. cbn [alive]. set_solver.
      * cbn [alive everMade]. set_solver.
      * exact Hbelow.
      * done.
    + eexists. split; [split|];
        cbn [snd self nextKey calls set_decorations decorations highlights dim].
      * rewrite hostRun_app, Hrun; cbv beta iota. rewrite hostRun_create by done.
        rewrite hostRun_bind by (cbn [alive]; set_solver). reflexivity.
      * unfold trackedSet, set_decorations, set_highlights, set_dim. cbn [alive decorations highlights dim].
        rewrite list_to_set_app_L. set_solver.
      * cbn [alive everMade]. set_solver.
      * exact Hbelow.
      * intros h [Hin| ->%list_elem_of_singleton]%elem_of_app; [by apply Hapart|].
        done.
      * intros _ Heq. unfold trackedSet, set_decorations, set_highlights, set_dim in *.
        cbn [alive decorations highlights dim].
        rewrite list_to_set_app_L, Heq. set_solver.
  - (* addHighlights *)
    destruct (addHighlights_cases e ps n w)
      as [->|[(o & _ & Hpart & ->)|(o & bs & _ & ->)]].
    + by exists s.
    + eexists. split; [split|intros Hwhole; by destruct Hpart];
        cbn [snd self nextKey calls decorations highlights dim].
      * rewrite hostRun_app, Hrun; cbv beta iota. by rewrite hostRun_create.
      * unfold trackedSet, set_decorations, set_highlights, set_dim. cbn [alive]. set_solver.
      * cbn [alive everMade]. set_solver.
      * exact Hbelow.
      * done.
    + eexists. split; [split|];
        cbn [snd self nextKey calls set_highlights decorations highlights dim].
      * rewrite hostRun_app, Hrun; cbv beta iota. rewrite hostRun_create by done.
        rewrite hostRun_bind by (cbn [alive]; set_solver). reflexivity.
      * unfold trackedSet, set_decorations, set_highlights, set_dim. cbn [alive decorations highlights dim].
        rewrite list_to_set_app_L. set_solver.
      * cbn [alive everMade]. set_solver.
      * exact Hbelow.
      * intros h Hin. rewrite elem_of_app, list_elem_of_singleton.
        intros [Hin'| ->]; [by apply (Hapart h)|done].
      * intros _ Heq. unfold trackedSet, set_decorations, set_highlights, set_dim in *.
        cbn [alive decorations highlights dim].
        rewrite list_to_set_app_L, Heq. set_solver.
  - (* dimEditor *)
    rewrite dimEditor_eq.
    destruct (dim (self w)) as [d|] eqn:Hd'.
    + destruct (Hdim d eq_refl) as [Hdd Hdh].
      eexists. split; [split|];
        cbn [snd self nextKey calls set_dim decorations highlights dim
             undimCalls].
      * rewrite hostRun_app, Hrun; cbv beta iota. cbn [app].
        rewrite hostRun_bind by (by apply Hdl).
        rewrite hostRun_dispose by (by apply Hdl).
        rewrite hostRun_create by done.
        rewrite hostRun_bind by (cbn [alive]; set_solver). reflexivity.
      * unfold trackedSet, set_decorations, set_highlights, set_dim. cbn [alive decorations highlights dim].
        intros h. rewrite !elem_of_union, elem_of_difference,
          !elem_of_list_to_set, !elem_of_singleton.
        intros [[Hin|Hin]| ->]; [| |by left].
        -- right. split; [by apply Had|]. by intros ->.
        -- right. split; [by apply Hah|]. by intros ->.
      * cbn [alive everMade]. set_solver.
      * exact Hbelow.
      * done.
      * intros _ Heq. unfold trackedSet, set_decorations, set_highlights, set_dim in *.
        rewrite Hd' in Heq.
        cbn [alive decorations highlights dim].
        rewrite Heq. apply set_eq. intros h.
        rewrite !elem_of_union, elem_of_difference, !elem_of_union,
          !elem_of_list_to_set, !elem_of_singleton.
        split; [tauto|]. intros [[Hin|Hin]| ->]; [| |by left].
        -- right. split; [tauto|]. by intros ->.
        -- right. split; [tauto|]. by intros ->.
    + eexists. split; [split|];
        cbn [snd self nextKey calls set_dim decorations highlights dim
             undimCalls].
      * rewrite hostRun_app, Hrun; cbv beta iota. cbn [app].
        rewrite hostRun_create by done.
        rewrite hostRun_bind by (cbn [alive]; set_solver). reflexivity.
      * unfold trackedSet, set_decorations, set_highlights, set_dim. cbn [alive decorations highlights dim]. set_solver.
      * cbn [alive everMade]. set_solver.
      * exact Hbelow.
      * done.
      * intros _ Heq. unfold trackedSet, set_decorations, set_highlights, set_dim in *.
        rewrite Hd' in Heq.
        cbn [alive decorations highlights dim]. rewrite Heq. set_solver.
  - (* removeDecorations *)
    rewrite removeDecorations_eq.
    eexists. split; [split|];
      cbn [snd self nextKey calls set_decorations decorations highlights dim].
    + rewrite hostRun_app, Hrun; cbv beta iota. by apply hostRun_clearAndRelease.
    + unfold trackedSet, set_decorations, set_highlights, set_dim. cbn [alive decorations highlights dim list_to_set].
      intros h. rewrite elem_of_difference, !elem_of_union, !elem_of_list_to_set.
      intros [[Hin|Hin]|Hin]; [by apply elem_of_empty in Hin| |].
      * split; [by apply Hah|]. intros Hin'. by apply (Hapart h).
      * destruct (dim (self w)) as [d|]; [|set_solver].
        apply elem_of_singleton in Hin as ->.
        split; [by apply Hdl|]. by destruct (Hdim d eq_refl).
    + cbn [alive everMade]. set_solver.
    + done.
    + intros h Hin. by apply elem_of_nil in Hin.
    + intros _ Heq. unfold trackedSet, set_decorations, set_highlights, set_dim in *.
      cbn [alive decorations highlights dim list_to_set].
      rewrite Heq. apply set_eq. intros h.
      rewrite elem_of_difference, !elem_of_union, !elem_of_list_to_set.
      split.
      * intros [[[Hin|Hin]|Hin] Hout]; [done|left; by right|by right].
      * intros [[Hin|Hin]|Hin]; [by apply elem_of_empty in Hin| |].
        -- split; [left; by right|]. intros Hin'. by apply (Hapart h).
        -- split; [by right|]. destruct (dim (self w)) as [d|]; [|set_solver].
           apply elem_of_singleton in Hin as ->.
           by destruct (Hdim d eq_refl).
  - (* removeHighlights *)
    rewrite removeHighlights_eq.
    eexists. split; [split|];
      cbn [snd self nextKey calls set_highlights decorations highlights dim].
    + rewrite hostRun_app, Hrun; cbv beta iota. by apply hostRun_clearAndRelease.
    + unfold trackedSet, set_decorations, set_highlights, set_dim. cbn [alive decorations highlights dim list_to_set].
      intros h. rewrite elem_of_difference, !elem_of_union, !elem_of_list_to_set.
      intros [[Hin|Hin]|Hin]; [|by apply elem_of_empty in Hin|].
      * split; [by apply Had|]. by apply Hapart.
      * destruct (dim (self w)) as [d|]; [|set_solver].
        apply elem_of_singleton in Hin as ->.
        split; [by apply Hdl|]. by destruct (Hdim d eq_refl).
    + cbn [alive everMade]. set_solver.
    + done.
    + intros h _. apply not_elem_of_nil.
    + intros _ Heq. unfold trackedSet, set_decorations, set_highlights, set_dim in *.
      cbn [alive decorations highlights dim list_to_set].
      rewrite Heq. apply set_eq. intros h.
      rewrite elem_of_difference, !elem_of_union, !elem_of_list_to_set.
      split.
      * intros [[[Hin|Hin]|Hin] Hout]; [left; by left|done|by right].
      * intros [[Hin|Hin]|Hin]; [|by apply elem_of_empty in Hin|].
        -- split; [left; by left|]. by apply Hapart.
        -- split; [by right|]. destruct (dim (self w)) as [d|]; [|set_solver].
           apply elem_of_singleton in Hin as ->.
           by destruct (Hdim d eq_refl).
  - (* undimEditor *)
    rewrite undimEditor_eq.
    destruct (dim (self w)) as [d|] eqn:Hd'.
    + destruct (Hdim d eq_refl) as [Hdd Hdh].
      eexists. split; [split|];
        cbn [snd self nextKey calls set_dim decorations highlights dim
             undimCalls].
      * rewrite hostRun_app, Hrun; cbv beta iota.
        rewrite hostRun_bind by (by apply Hdl).
        rewrite hostRun_dispose by (by apply Hdl). reflexivity.
      * unfold trackedSet, set_decorations, set_highlights, set_dim. cbn [alive decorations highlights dim].
        intros h. rewrite !elem_of_union, elem_of_difference,
          !elem_of_list_to_set, elem_of_singleton.
        intros [[Hin|Hin]|Hin]; [| |by apply elem_of_empty in Hin].
        -- split; [by apply Had|]. by intros ->.
        -- split; [by apply Hah|]. by intros ->.
      * cbn [alive everMade]. set_solver.
      * done.
      * done.
      * intros _ Heq. unfold trackedSet, set_decorations, set_highlights, set_dim in *.
        rewrite Hd' in Heq.
        cbn [alive decorations highlights dim].
        rewrite Heq. apply set_eq. intros h.
        rewrite elem_of_difference, !elem_of_union, !elem_of_list_to_set,
          elem_of_singleton.
        split; [intros [[[?|?]|?] ?]; [by left; left|by left; right|done]|].
        intros [[Hin|Hin]|Hin]; [| |by apply elem_of_empty in Hin].
        -- split; [left; by left|]. by intros ->.
        -- split; [left; by right|]. by intros ->.
    + exists s. split; [split|];
        cbn [snd self nextKey calls set_dim decorations highlights dim
             undimCalls]; try done.
      * by rewrite app_nil_r.
      * intros _ Heq. unfold trackedSet, set_decorations, set_highlights, set_dim in *.
        rewrite Hd' in Heq.
        cbn [decorations highlights dim]. by rewrite Heq.
Qed.

(** X2. Whatever calls a client makes on a new decorator, the host
    accepts every call the decorator makes to it: a handle is bound or
    disposed of only while it is alive, so none is used after its
    disposal and none is disposed of twice, and every tracked handle is
    alive.  When every [refreshConfig] was given a config that can be
    built, the handles alive at the host are exactly the tracked ones:
    none leaks. *)
Theorem host_contract_kept (cs : list Call) :
  let w := runCalls cs initialWorld in
  ∃ s : HostState,
    hostRun (calls w) hostStart = Some s
    ∧ trackedSet (self w) ⊆ alive s
    ∧ (Forall validCall cs → alive s = trackedSet (self w)).
Proof.
  cbv zeta.
  assert (∃ s, hostAgrees (runCalls cs initialWorld) s
               ∧ (Forall validCall cs →
                  alive s = trackedSet (self (runCalls cs initialWorld))))
    as (s & Hs & Heq).
  { induction cs as [|c cs (s & IH & IHeq)] using rev_ind.
    - exists hostStart. split; [apply hostAgrees_initial|done].
    - rewrite runCalls_snoc.
      destruct (hostAgrees_call c _ s
                  (tracksWell_runCalls cs _ tracksWell_initial) IH)
        as (s' & Hs' & Heq').
      exists s'. split; [done|]. intros [Hcs Hc]%Forall_app.
      apply Heq'; [by apply whole_runCalls|by apply IHeq]. }
  exists s. split; [apply Hs|]. split; [apply Hs|done].
Qed.

Lemma hostAgrees_runCalls cs : ∃ s, hostAgrees (runCalls cs initialWorld) s.
Proof.
  induction cs as [|c cs [s IH]] using rev_ind.
  - exists hostStart. apply hostAgrees_initial.
  - rewrite runCalls_snoc.
    destruct (hostAgrees_call c _ s
                (tracksWell_runCalls cs _ tracksWell_initial) IH)
      as (s' & Hs' & _).
    by exists s'.
Qed.

(** X10. After a [refreshConfig] that threw before it stored a cache,
    the decorator holds a config and no cache.  An [addDecorations] with
    at least one target then makes its handle, throws a [TypeError] on
    reading the cache and never tracks the handle: the decorator is as
    before, the host has accepted the calls and holds one more live
    handle, which no later remove can reach.  The same holds of
    [addHighlights] when the highlight cache is missing. *)
Theorem add_without_cache_leaks (cs : list Call) (config0 : Config.t)
        (editor : TextEditor) (p : Placeholder.t) (ps : list Placeholder.t)
        (highlightCount : Z) :
  let w := runCalls cs initialWorld in
  let made := {| key := nextKey w |} in
  let footprint :=
    glyphFootprint (PlaceholderConfig.width (Config.placeholder config0))
                   (PlaceholderConfig.height (Config.placeholder config0)) in
  let leaks (w' : World) :=
    self w' = self w
    ∧ calls w' = calls w ++ [CreateTextEditorDecorationType made footprint]
    ∧ (made ∉ trackedSet (self w'))
    ∧ ∃ s', hostRun (calls w') hostStart = Some s' ∧ made ∈ alive s' in
  config (self w) = Some config0 →
  (placeholderCache (self w) = None →
   ∃ w', addDecorations editor (p :: ps) w = (Throw TypeError, w') ∧ leaks w')
  ∧ (highlightCache (self w) = None →
     ∃ w', addHighlights editor (p :: ps) highlightCount w = (Throw TypeError, w')
           ∧ leaks w').
Proof.
  intros w made footprint leaks Hconfig.
  assert (tracksWell w) as [Hd Hh Hdim Hkeys _]
    by apply tracksWell_runCalls, tracksWell_initial.
  destruct (hostAgrees_runCalls cs) as [s [Hrun Htracked Hsub Hmade Hapart]].
  fold w in Hrun, Htracked, Hmade, Hapart.
  assert (leaks {| self := self w; nextKey := S (nextKey w);
                   calls := calls w ++
                     [CreateTextEditorDecorationType made footprint] |})
    as Hleaks.
  { unfold leaks. cbn [self calls]. split; [done|]. split; [done|]. split.
    - unfold trackedSet. rewrite !elem_of_union, !elem_of_list_to_set.
      intros [[Hin|Hin]|Hin].
      + apply (or_introl (B := made ∈ highlights (self w) ∨ dim (self w) = Some made))
          in Hin. apply Hkeys in Hin. cbn in Hin. lia.
      + assert (key made < nextKey w)%nat as Hlt
          by (apply Hkeys; right; by left). cbn in Hlt. lia.
      + destruct (dim (self w)) as [d|] eqn:Hd'; [|by apply elem_of_empty in Hin].
        apply elem_of_singleton in Hin as <-.
        assert (key made < nextKey w)%nat as Hlt
          by (apply Hkeys; right; by right). cbn in Hlt. lia.
    - eexists. rewrite hostRun_app, Hrun; cbv beta iota.
      rewrite hostRun_create.
      + split; [reflexivity|]. cbn [alive]. set_solver.
      + intros Hin. apply Hmade in Hin. cbn in Hin. lia. }
  split.
  - intros Hcache. eexists. split; [|exact Hleaks].
    by apply addDecorations_uncached.
  - intros Hcache. eexists. split; [|exact Hleaks].
    by apply addHighlights_uncached.
Qed.

End Decorator.

(** * The properties on sample inputs

    The case mappings are the ASCII ones: the sample codes are ASCII. *)

(** The caches of a sample config, by evaluation. *)
Ltac sample_builds := eexists _, _; repeat apply conj; vm_compute; reflexivity.

(** C1, as stated, fails.  A [refreshConfig] given a config with a
    highlight colour the builder refuses throws after it has stored the
    config and the new placeholder cache: the highlight cache is still
    the one built from the config before, so its bars come from a
    config that is no longer stored, next to glyphs of the new one. *)
Lemma refreshConfig_keeps_stale_bars :
  let w := demoWorld JS.asciiUpperCase JS.asciiLowerCase in
  let w' := (refreshConfig JS.asciiUpperCase JS.asciiLowerCase
               badHighlightConfig w).2 in
  (refreshConfig JS.asciiUpperCase JS.asciiLowerCase badHighlightConfig w).1
  = Throw InvalidCharacter
  ∧ config (self w') = Some badHighlightConfig
  ∧ highlightCache (self w') = highlightCache (self w)
  ∧ (highlightCache (self w') ≫= λ hc, hc !! 1)
    = valueOf (buildUriForHighlight demoConfig 1)
  ∧ buildUriForHighlight badHighlightConfig 1 = Throw InvalidCharacter
  ∧ ((λ pc, JS.get pc "j") <$> placeholderCache (self w'))
    = Some (JS.ofOption (valueOf (buildUriForPlaceholder
        JS.asciiUpperCase JS.asciiLowerCase badHighlightConfig "j")))
  ∧ ((λ pc, JS.get pc "a") <$> placeholderCache (self w')) = Some JS.Undefined.
Proof. repeat apply conj; by vm_compute. Qed.

(** C3, as stated, fails.  The code [constructor] is not among the
    codes of the demo config, yet its target is not left without a
    resource: the cache is a plain object and the read falls back on
    [Object.prototype]. *)
Lemma inherited_property_is_bound :
  ("constructor" ∉ Config.characters demoConfig)
  ∧ addDecorations demoEditor [Placeholder.mk 3 5 "constructor"]
      (demoWorld JS.asciiUpperCase JS.asciiLowerCase)
    = (Normal (),
       {| self := set_decorations [{| key := 0 |}]
                    (self (demoWorld JS.asciiUpperCase JS.asciiLowerCase));
          nextKey := 1;
          calls := [CreateTextEditorDecorationType {| key := 0 |}
                      (glyphFootprint 12 14);
                    SetDecorations demoEditor {| key := 0 |}
                      [pointBinding 3 6 (JS.FromPrototype None "constructor")]] |}).
Proof.
  split; [|by vm_compute].
  cbn. rewrite !elem_of_cons, elem_of_nil. intros [?|[?|[?|?]]]; done.
Qed.

(** C4, as stated, fails: on a new decorator both [add] methods throw. *)
Lemma add_before_refresh_throws :
  addDecorations demoEditor demoTargets initialWorld = (Throw TypeError, initialWorld)
  ∧ addHighlights demoEditor demoTargets 2 initialWorld = (Throw TypeError, initialWorld).
Proof. split; reflexivity. Qed.



(** C7, as stated, fails.  After a [refreshConfig] that threw on its
    first cache, one [addDecorations] leaves no handle tracked: the
    handle it made is known to the host alone, and [removeDecorations]
    tells the host nothing. *)
Lemma add_after_failed_refresh_is_untracked :
  let before := [RefreshConfig badCodeConfig] in
  let w0 := runCalls JS.asciiUpperCase JS.asciiLowerCase before initialWorld in
  let w1 := runCalls JS.asciiUpperCase JS.asciiLowerCase
              [AddDecorations demoEditor demoTargets] w0 in
  lastRefresh before = Some badCodeConfig
  ∧ (refreshConfig JS.asciiUpperCase JS.asciiLowerCase badCodeConfig initialWorld).1
    = Throw InvalidCharacter
  ∧ decorations (self w1) = []
  ∧ calls w1 = [CreateTextEditorDecorationType {| key := 0 |} (glyphFootprint 12 14)]
  ∧ removeDecorations demoEditor w1 = (Normal (), w1).
Proof. repeat apply conj; by vm_compute. Qed.

Lemma refreshConfig_rebuilds_caches_witness :
  let cs := [RefreshConfig otherConfig; AddDecorations demoEditor demoTargets;
             RefreshConfig demoConfig; AddHighlights demoEditor demoTargets 2] in
  builds JS.asciiUpperCase JS.asciiLowerCase demoConfig
  ∧ lastRefresh cs = Some demoConfig
  ∧ config (self (runCalls JS.asciiUpperCase JS.asciiLowerCase cs initialWorld))
    = Some demoConfig.
Proof.
  intros cs.
  assert (builds JS.asciiUpperCase JS.asciiLowerCase demoConfig) as Hbuilds
    by sample_builds.
  split; [exact Hbuilds|]. split; [reflexivity|].
  apply (refreshConfig_rebuilds_caches JS.asciiUpperCase JS.asciiLowerCase
           cs demoConfig initialWorld Hbuilds eq_refl).
Defined.

Lemma anchor_columns_witness :
  let w := demoWorld JS.asciiUpperCase JS.asciiLowerCase in
  config (self w) = Some demoConfig
  ∧ is_Some (placeholderCache (self w))
  ∧ is_Some (highlightCache (self w))
  ∧ ∃ w' earlier made bindings,
      addDecorations demoEditor demoTargets w = (Normal (), w')
      ∧ calls w' = earlier ++ [SetDecorations demoEditor made bindings]
      ∧ range <$> bindings
        = [Range.mk (Position.new 3 6) (Position.new 3 6);
           Range.mk (Position.new 4 1) (Position.new 4 1);
           Range.mk (Position.new 7 3) (Position.new 7 3)].
Proof.
  intros w.
  assert (config (self w) = Some demoConfig) as Hconfig by (by vm_compute).
  assert (is_Some (placeholderCache (self w))) as [pc Hpc]
    by (eexists; vm_compute; reflexivity).
  assert (is_Some (highlightCache (self w))) as [hc Hhc]
    by (eexists; vm_compute; reflexivity).
  split; [exact Hconfig|]. split; [by exists pc|]. split; [by exists hc|].
  destruct (anchor_columns demoConfig pc hc demoEditor demoTargets 2 w
              Hconfig Hpc Hhc)
    as [(w' & earlier & made & bindings & Hrun & Hcalls & Hranges & _) _].
  exists w', earlier, made, bindings.
  repeat split; [exact Hrun|exact Hcalls|exact Hranges].
Defined.

Lemma cache_miss_is_soft_witness :
  let w := demoWorld JS.asciiUpperCase JS.asciiLowerCase in
  cachesBuiltFrom JS.asciiUpperCase JS.asciiLowerCase demoConfig (self w)
  ∧ ("__proto__" ∉ Config.characters demoConfig)
  ∧ ∃ w' earlier made bindings icon,
      addHighlights demoEditor demoTargets 11 w = (Normal (), w')
      ∧ calls w' = earlier ++ [SetDecorations demoEditor made bindings]
      ∧ length bindings = 3%nat
      ∧ Forall (λ b, darkIconOf b = icon ∧ lightIconOf b = icon) bindings
      ∧ icon = JS.Undefined.
Proof.
  intros w.
  assert (cachesBuiltFrom JS.asciiUpperCase JS.asciiLowerCase demoConfig (self w))
    as Hbuilt by sample_builds.
  assert ("__proto__" ∉ Config.characters demoConfig) as Hproto.
  { cbn. rewrite !elem_of_cons, elem_of_nil. intros [?|[?|[?|?]]]; done. }
  split; [exact Hbuilt|]. split; [exact Hproto|].
  destruct (cache_miss_is_soft JS.asciiUpperCase JS.asciiLowerCase demoConfig
              demoEditor demoTargets 11 w Hbuilt Hproto)
    as [_ (w' & earlier & made & bindings & icon & Hrun & Hcalls & Hlen & Hicons
           & Hicon)].
  exists w', earlier, made, bindings, icon.
  repeat apply conj; [exact Hrun|exact Hcalls|exact Hlen|exact Hicons|exact Hicon].
Defined.

Lemma add_unconfigured_or_out_of_range_witness :
  let w := demoWorld JS.asciiUpperCase JS.asciiLowerCase in
  cachesBuiltFrom JS.asciiUpperCase JS.asciiLowerCase demoConfig (self w)
  ∧ ¬ (1 ≤ 0 ≤ 10)
  ∧ addDecorations demoEditor demoTargets initialWorld
    = (Throw TypeError, initialWorld)
  ∧ addHighlights demoEditor demoTargets 0 initialWorld
    = (Throw TypeError, initialWorld)
  ∧ ∃ w' earlier made bindings,
      addHighlights demoEditor demoTargets 0 w = (Normal (), w')
      ∧ calls w' = earlier ++ [SetDecorations demoEditor made bindings]
      ∧ length bindings = 3%nat
      ∧ Forall (λ b, darkIconOf b = JS.Undefined
                     ∧ lightIconOf b = JS.Undefined) bindings.
Proof.
  intros w.
  assert (cachesBuiltFrom JS.asciiUpperCase JS.asciiLowerCase demoConfig (self w))
    as Hbuilt by sample_builds.
  assert (¬ (1 ≤ 0 ≤ 10)) as Hrange by lia.
  split; [exact Hbuilt|]. split; [exact Hrange|].
  destruct (add_unconfigured_or_out_of_range JS.asciiUpperCase JS.asciiLowerCase
              demoEditor demoTargets 0 newPlaceHolderDecorator 0 [])
    as [[Hdecorations Hhighlights] Hout].
  split; [exact Hdecorations|]. split; [exact Hhighlights|].
  exact (Hout w demoConfig Hbuilt Hrange).
Defined.

Lemma addHighlights_footprint_witness :
  let w := demoWorld JS.asciiUpperCase JS.asciiLowerCase in
  cachesBuiltFrom JS.asciiUpperCase JS.asciiLowerCase demoConfig (self w)
  ∧ ∃ w' made bindings,
      addHighlights demoEditor demoTargets 3 w = (Normal (), w')
      ∧ calls w'
        = [CreateTextEditorDecorationType made
             (DecorationRenderOptions.mk None (Some
                {| contentIconPath := JS.Undefined; margin := Some "0 0 0 -12px";
                   height := Some "14px"; width := Some "12px" |}));
           SetDecorations demoEditor made bindings].
Proof.
  intros w.
  assert (cachesBuiltFrom JS.asciiUpperCase JS.asciiLowerCase demoConfig (self w))
    as Hbuilt by sample_builds.
  split; [exact Hbuilt|].
  destruct (addHighlights_footprint JS.asciiUpperCase JS.asciiLowerCase demoConfig
              demoEditor demoTargets 3 w Hbuilt)
    as [(w' & made & bindings & icon & Hrun & Hcalls & _) _].
  exists w', made, bindings. split; [exact Hrun|exact Hcalls].
Defined.

Lemma handle_tracking_witness :
  let before := [UndimEditor demoEditor; RefreshConfig demoConfig;
                 AddDecorations demoEditor demoTargets;
                 RefreshConfig badHighlightConfig] in
  let cs := [AddDecorations demoEditor demoTargets; AddHighlights demoEditor demoTargets 2;
             RemoveHighlights demoEditor; AddDecorations demoEditor []] in
  let cs' := [AddHighlights demoEditor demoTargets 2; RemoveDecorations demoEditor] in
  let w0 := runCalls JS.asciiUpperCase JS.asciiLowerCase before initialWorld in
  ready (self w0)
  ∧ Forall (λ c, isRemoveDecorations c = false) cs
  ∧ Forall (λ c, isRemoveHighlights c = false) cs'
  ∧ length (decorations
              (self (runCalls JS.asciiUpperCase JS.asciiLowerCase cs w0))) = 3%nat
  ∧ length (highlights
              (self (runCalls JS.asciiUpperCase JS.asciiLowerCase cs' w0))) = 1%nat.
Proof.
  intros before cs cs' w0.
  assert (ready (self w0)) as H1
    by (repeat apply conj; eexists; vm_compute; reflexivity).
  assert (Forall (λ c, isRemoveDecorations c = false) cs) as H2
    by (repeat constructor).
  assert (Forall (λ c, isRemoveHighlights c = false) cs') as H3
    by (repeat constructor).
  split; [exact H1|]. split; [exact H2|]. split; [exact H3|].
  destruct (handle_tracking JS.asciiUpperCase JS.asciiLowerCase
              before cs cs' demoEditor None)
    as (Hdecorations & _ & Hhighlights & _).
  split; [exact (Hdecorations H1 H2)|exact (Hhighlights H1 H3)].
Defined.



Lemma remove_absorbs_add_witness :
  let w := demoWorld JS.asciiUpperCase JS.asciiLowerCase in
  cachesBuiltFrom JS.asciiUpperCase JS.asciiLowerCase demoConfig (self w)
  ∧ self ((addDecorations demoEditor demoTargets ;; removeDecorations demoEditor) w).2
    = self (removeDecorations demoEditor w).2.
Proof.
  intros w.
  assert (cachesBuiltFrom JS.asciiUpperCase JS.asciiLowerCase demoConfig (self w))
    as Hbuilt by sample_builds.
  split; [exact Hbuilt|].
  apply (remove_absorbs_add JS.asciiUpperCase JS.asciiLowerCase demoConfig
           demoEditor demoEditor demoTargets 1 None w Hbuilt).
Defined.

Lemma addHighlights_by_position_witness :
  let w := demoWorld JS.asciiUpperCase JS.asciiLowerCase in
  cachesBuiltFrom JS.asciiUpperCase JS.asciiLowerCase demoConfig (self w)
  ∧ positionOf <$> [Placeholder.mk 3 5 "s"] = positionOf <$> [Placeholder.mk 3 5 "zz"]
  ∧ addHighlights demoEditor [Placeholder.mk 3 5 "s"] 2 w
    = addHighlights demoEditor [Placeholder.mk 3 5 "zz"] 2 w.
Proof.
  intros w.
  assert (cachesBuiltFrom JS.asciiUpperCase JS.asciiLowerCase demoConfig (self w))
    as Hbuilt by sample_builds.
  split; [exact Hbuilt|]. split; [reflexivity|].
  apply (addHighlights_by_position JS.asciiUpperCase JS.asciiLowerCase demoConfig
           demoEditor _ _ 2 w Hbuilt).
  reflexivity.
Defined.

Lemma refreshConfig_last_wins_witness :
  builds JS.asciiUpperCase JS.asciiLowerCase otherConfig
  ∧ runCalls JS.asciiUpperCase JS.asciiLowerCase
      [RefreshConfig badCodeConfig; RefreshConfig otherConfig] initialWorld
    = runCalls JS.asciiUpperCase JS.asciiLowerCase
        [RefreshConfig otherConfig] initialWorld.
Proof.
  assert (builds JS.asciiUpperCase JS.asciiLowerCase otherConfig) as Hbuilds
    by sample_builds.
  split; [exact Hbuilds|].
  apply (refreshConfig_last_wins JS.asciiUpperCase JS.asciiLowerCase
           badCodeConfig otherConfig initialWorld Hbuilds).
Defined.

Lemma refreshConfig_commutes_witness :
  let w := demoWorld JS.asciiUpperCase JS.asciiLowerCase in
  isHandleOnly (DimEditor demoEditor None) = true
  ∧ runCalls JS.asciiUpperCase JS.asciiLowerCase
      [RefreshConfig badHighlightConfig; DimEditor demoEditor None] w
    = runCalls JS.asciiUpperCase JS.asciiLowerCase
        [DimEditor demoEditor None; RefreshConfig badHighlightConfig] w.
Proof.
  intros w. split; [reflexivity|].
  apply (refreshConfig_commutes JS.asciiUpperCase JS.asciiLowerCase
           badHighlightConfig (DimEditor demoEditor None) w eq_refl).
Defined.

Lemma counters_follow_calls_witness :
  let cs := [AddDecorations demoEditor demoTargets; RefreshConfig demoConfig;
             AddDecorations demoEditor demoTargets; DimEditor demoEditor None;
             AddHighlights demoEditor [] 4; RemoveDecorations demoEditor] in
  Forall (validCall JS.asciiUpperCase JS.asciiLowerCase) cs
  ∧ countersOf (self (runCalls JS.asciiUpperCase JS.asciiLowerCase cs initialWorld))
    = {| hasConfig := true; nDecorations := 0; nHighlights := 1; hasDim := true |}.
Proof.
  intros cs.
  assert (Forall (validCall JS.asciiUpperCase JS.asciiLowerCase) cs) as Hvalid
    by (repeat constructor; sample_builds).
  split; [exact Hvalid|].
  exact (counters_follow_calls JS.asciiUpperCase JS.asciiLowerCase cs Hvalid).
Defined.

Lemma caches_ignore_order_witness :
  Config.placeholder demoConfig = Config.placeholder shuffledConfig
  ∧ Config.highlight demoConfig = Config.highlight shuffledConfig
  ∧ (∀ code, code ∈ Config.characters demoConfig
             ↔ code ∈ Config.characters shuffledConfig)
  ∧ builds JS.asciiUpperCase JS.asciiLowerCase demoConfig
  ∧ placeholderCache
      (self (refreshConfig JS.asciiUpperCase JS.asciiLowerCase demoConfig
               initialWorld).2)
    = placeholderCache
        (self (refreshConfig JS.asciiUpperCase JS.asciiLowerCase shuffledConfig
                 (demoWorld JS.asciiUpperCase JS.asciiLowerCase)).2).
Proof.
  assert (∀ code, code ∈ Config.characters demoConfig
                  ↔ code ∈ Config.characters shuffledConfig) as Hchars.
  { intros code. cbn. rewrite !elem_of_cons, !elem_of_nil. tauto. }
  assert (builds JS.asciiUpperCase JS.asciiLowerCase demoConfig) as Hbuilds
    by sample_builds.
  split; [reflexivity|]. split; [reflexivity|]. split; [exact Hchars|].
  split; [exact Hbuilds|].
  apply (caches_ignore_order JS.asciiUpperCase JS.asciiLowerCase
           demoConfig shuffledConfig initialWorld
           (demoWorld JS.asciiUpperCase JS.asciiLowerCase)
           eq_refl eq_refl Hchars Hbuilds).
Defined.

Lemma host_contract_kept_witness :
  let cs := [RefreshConfig demoConfig; AddDecorations demoEditor demoTargets;
             DimEditor demoEditor None; AddHighlights demoEditor demoTargets 1;
             RemoveDecorations demoEditor] in
  let w := runCalls JS.asciiUpperCase JS.asciiLowerCase cs initialWorld in
  Forall (validCall JS.asciiUpperCase JS.asciiLowerCase) cs
  ∧ ∃ s, hostRun (calls w) hostStart = Some s ∧ alive s = trackedSet (self w).
Proof.
  intros cs w.
  assert (Forall (validCall JS.asciiUpperCase JS.asciiLowerCase) cs) as Hvalid
    by (repeat constructor; sample_builds).
  split; [exact Hvalid|].
  destruct (host_contract_kept JS.asciiUpperCase JS.asciiLowerCase cs)
    as (s & Hrun & _ & Heq).
  exists s. split; [exact Hrun|exact (Heq Hvalid)].
Defined.

Lemma add_without_cache_leaks_witness :
  let cs := [RefreshConfig badCodeConfig] in
  let w := runCalls JS.asciiUpperCase JS.asciiLowerCase cs initialWorld in
  config (self w) = Some badCodeConfig
  ∧ placeholderCache (self w) = None
  ∧ ∃ w', addDecorations demoEditor demoTargets w = (Throw TypeError, w')
          ∧ self w' = self w
          ∧ calls w' = [CreateTextEditorDecorationType {| key := 0 |}
                          (glyphFootprint 12 14)].
Proof.
  intros cs w.
  assert (config (self w) = Some badCodeConfig) as Hconfig by (by vm_compute).
  assert (placeholderCache (self w) = None) as Hcache by (by vm_compute).
  split; [exact Hconfig|]. split; [exact Hcache|].
  destruct (add_without_cache_leaks JS.asciiUpperCase JS.asciiLowerCase cs
              badCodeConfig demoEditor (Placeholder.mk 3 5 "s")
              [Placeholder.mk 4 0 "x"; Placeholder.mk 7 2 "a"] 1 Hconfig)
    as [Hleak _].
  destruct (Hleak Hcache) as (w' & Hrun & Hself & Hcalls & _).
  exists w'. split; [exact Hrun|]. split; [exact Hself|exact Hcalls].
Defined.

(** ** Worked examples *)

(** What the builder escapes and what it refuses. *)
Example escaped_values :
  builder.attEscape ("a<b&c" +:+ String "034" "d") = "a&lt;b&amp;c&quot;d"
  ∧ builder.elEscape "a<b>&" = "a&lt;b&gt;&amp;"
  ∧ builder.isLegal (String "009" "ok") = true
  ∧ builder.isLegal nul = false
  ∧ builder.end_ (builder.create "text") = "<text/>".
Proof. repeat apply conj; by vm_compute. Qed.

(** An empty code is written as a self-closed [text] element, and the
    ASCII case mappings leave other bytes alone. *)
Example empty_code_markup :
  let q := λ s : string, String "034" (s +:+ String "034" "") in
  (builder.end_ <$>
     valueOf (builder.text "" (builder.create "text")
              ≫= builder.att "x" "1"))
  = Some ("<text x=" +:+ q "1" +:+ "/>")
  ∧ JS.asciiUpperCase "aZ-9é" = "AZ-9é"
  ∧ JS.asciiLowerCase "aZ-9É" = "az-9É".
Proof. repeat apply conj; by vm_compute. Qed.

(** After [refreshConfig], a target at line 3, column 5 with code [s]
    is bound at (3, 6) to the cached glyph for [s]. *)
Example demo_addDecorations :
  (∃ uri, buildUriForPlaceholder JS.asciiUpperCase JS.asciiLowerCase demoConfig "s"
          = Normal uri
    ∧ runCalls JS.asciiUpperCase JS.asciiLowerCase
        [RefreshConfig demoConfig; AddDecorations demoEditor [Placeholder.mk 3 5 "s"]]
        initialWorld
      = {| self := set_decorations [{| key := 0 |}]
                     (self (demoWorld JS.asciiUpperCase JS.asciiLowerCase));
           nextKey := 1;
           calls :=
             [CreateTextEditorDecorationType {| key := 0 |} (glyphFootprint 12 14);
              SetDecorations demoEditor {| key := 0 |}
                [pointBinding 3 6 (JS.Defined uri)]] |}).
Proof. eexists. split; vm_compute; reflexivity. Qed.

(** Dimming twice: the first dim handle is cleared and released before
    the second is made. *)
Example demo_dim_twice :
  calls (runCalls JS.asciiUpperCase JS.asciiLowerCase
           [DimEditor demoEditor None; DimEditor demoEditor (Some [])]
           initialWorld)
  = [CreateTextEditorDecorationType {| key := 0 |} dimStyle;
     SetDecorations demoEditor {| key := 0 |} [ofRange (wholeBuffer demoEditor)];
     SetDecorations demoEditor {| key := 0 |} [];
     Dispose {| key := 0 |};
     CreateTextEditorDecorationType {| key := 1 |} dimStyle;
     SetDecorations demoEditor {| key := 1 |} [ofRange (wholeBuffer demoEditor)]].
Proof. by vm_compute. Qed.
